(** * CommitCast: the wagering ledger and the settlement of commitments

    A shallow embedding of the backend of CommitCast
    ([commitcast-backend/app/main.py], [models.py], [ai_client.py]) and the
    properties of its settlement engine, wager book and lifecycle
    controller.

    The SQL tables are lists of rows in insertion order.  A query filters
    the list, [.first()] takes the first match, an attribute assignment on a
    fetched row changes that row in place, and [db.delete(row)] deletes by
    the primary key of the row.  The state is the committed state of the
    database: every endpoint raises before its first uncommitted write, so
    a raised [HTTPException] never leaves a partial write behind.  Python's
    [int] is [Z]; Python's [float] is the kernel's binary64 [float]. *)

From Stdlib Require Import Ascii ZArith List String Bool Lia Floats Uint63.
From Stdlib Require Import Permutation.
Import ListNotations.

Open Scope string_scope.
Open Scope list_scope.
Open Scope Z_scope.

(** A decimal literal denotes the nearest binary64 value, as in Python. *)
Set Warnings "-inexact-float".

(** ** Python numbers *)

Module Py.

(** [float(n)] for an [int] of at most 63 bits; the conversion is exact
    below [2^53].  Stakes and pots are sums of stakes debited from
    balances, and days are days: they stay far below that. *)
Definition float_of_int (n : Z) : float :=
  if n <? 0
  then PrimFloat.opp (PrimFloat.of_uint63 (Uint63.of_Z (- n)))
  else PrimFloat.of_uint63 (Uint63.of_Z n).

(** [int(x)] for a finite [float]: truncation towards zero.  [int] of an
    infinity or of a NaN raises in Python; settlement never produces one
    (the quotient of a stake by the winners' stakes is at most one), and
    the model returns [0] there. *)
Definition int_of_float (x : float) : Z :=
  match Prim2SF x with
  | S754_finite s m e =>
      let v := if 0 <=? e then Z.pos m * 2 ^ e else Z.pos m / 2 ^ (- e) in
      if s then - v else v
  | _ => 0
  end.

(** [a / b] on two [int]s is the true division: the binary64 quotient. *)
Definition truediv (a b : Z) : float :=
  PrimFloat.div (float_of_int a) (float_of_int b).

(** [x * n] with [x] a [float] and [n] an [int]. *)
Definition fmul_int (x : float) (n : Z) : float :=
  PrimFloat.mul x (float_of_int n).

(** [sum(f(r) for r in rows)]. *)
Definition sum {A : Type} (f : A -> Z) (rows : list A) : Z :=
  fold_right (fun r acc => f r + acc) 0 rows.

(** [min(a, b)] and [max(a, b)]: the first argument is kept unless the
    second is strictly smaller, or strictly larger; a NaN compares false. *)
Definition min (a b : float) : float := if PrimFloat.ltb b a then b else a.
Definition max (a b : float) : float := if PrimFloat.ltb a b then b else a.

(** The integer nearest to [m * 2^e], the even one when two are as near. *)
Definition nearest_even (m e : Z) : Z :=
  if 0 <=? e then m * 2 ^ e
  else
    let d := 2 ^ (- e) in
    let q := m / d in
    let r := m mod d in
    if 2 * r <? d then q
    else if d <? 2 * r then q + 1
    else if Z.even q then q else q + 1.

(** [round(x, 3)]: the float nearest to the decimal with three places that
    is nearest to the exact value of [x], the even one when [x] is half-way;
    an infinity, a NaN and a zero are returned as they are.  The quotient
    is that decimal, correctly rounded, as long as [|x| * 1000 < 2^53],
    which covers the [0 <= x <= 1] where the heuristic rounds. *)
Definition round3 (x : float) : float :=
  match Prim2SF x with
  | S754_finite s m e =>
      let r := PrimFloat.div (float_of_int (nearest_even (Z.pos m * 1000) e))
                             1000 in
      if s then PrimFloat.opp r else r
  | _ => x
  end.


End Py.

(** ** The data model ([models.py]) *)

Record UserBalance := mkUserBalance {
  ub_user_id : Z;
  ub_balance : Z
}.

(** The columns of [Commitment] that the ledger and the lifecycle read or
    write; titles, categories, visibility, the public code and the
    prediction fields play no part in them. *)
Record Commitment := mkCommitment {
  c_id : Z;
  c_owner_id : Z;
  c_deadline : Z;
  c_status : string;
  c_completion_report : option string;
  c_evidence_url : option string;
  c_completed_at : option Z
}.

Record Bet := mkBet {
  b_id : Z;
  b_commitment_id : Z;
  b_bettor_id : Z;
  b_direction : string;
  b_amount : Z;
  b_resolved : bool;
  b_payout : option Z
}.

(** A row of [commitment_context_messages] or of [coaching_messages]. *)
Record Message := mkMessage {
  m_id : Z;
  m_commitment_id : Z;
  m_role : string;
  m_content : string
}.

Record User := mkUser {
  u_id : Z;
  u_email : string
}.

Record DB := mkDB {
  users : list User;
  balances : list UserBalance;
  commitments : list Commitment;
  bets : list Bet;
  context_messages : list Message;
  coaching_messages : list Message
}.

Definition empty_db : DB := mkDB [] [] [] [] [] [].

Definition set_balances (db : DB) (bs : list UserBalance) : DB :=
  mkDB (users db) bs (commitments db) (bets db)
       (context_messages db) (coaching_messages db).

Definition set_commitments (db : DB) (cs : list Commitment) : DB :=
  mkDB (users db) (balances db) cs (bets db)
       (context_messages db) (coaching_messages db).

Definition set_bets (db : DB) (bs : list Bet) : DB :=
  mkDB (users db) (balances db) (commitments db) bs
       (context_messages db) (coaching_messages db).

(** [raise HTTPException(status_code=..., detail=...)]. *)
Record HTTPException := mkHTTPException {
  status_code : Z;
  detail : string
}.

(** What a call of an endpoint does: it returns a value or raises, and in
    both cases leaves a committed state. *)
Inductive response (A : Type) : Type :=
| Returned (a : A) (db : DB)
| Raised (e : HTTPException) (db : DB).

Arguments Returned {A} a db.
Arguments Raised {A} e db.

Definition final_db {A : Type} (r : response A) : DB :=
  match r with
  | Returned _ db => db
  | Raised _ db => db
  end.

Definition raised {A : Type} (r : response A) : option HTTPException :=
  match r with
  | Returned _ _ => None
  | Raised e _ => Some e
  end.

(** ** Queries *)

(** [db.query(UserBalance).filter(UserBalance.user_id == uid).first()]. *)
Definition find_balance (db : DB) (uid : Z) : option UserBalance :=
  find (fun r => ub_user_id r =? uid) (balances db).

(** [db.query(Commitment).filter(Commitment.id == cid).first()]. *)
Definition find_commitment (db : DB) (cid : Z) : option Commitment :=
  find (fun c => c_id c =? cid) (commitments db).

(** [db.query(Commitment).filter(Commitment.id == cid,
    Commitment.owner_id == uid).first()]. *)
Definition find_owned_commitment (db : DB) (cid uid : Z) : option Commitment :=
  find (fun c => (c_id c =? cid) && (c_owner_id c =? uid)) (commitments db).

(** [db.query(Bet).filter(Bet.id == bid).first()]. *)
Definition find_bet (db : DB) (bid : Z) : option Bet :=
  find (fun b => b_id b =? bid) (bets db).

(** The id that SQLite gives the next row of a table: one more than the
    largest id in it. *)
Definition next_id (ids : list Z) : Z :=
  1 + fold_right Z.max 0 ids.

(** [balance.balance += amount] on the row that [find_balance] fetched:
    the first row of the user changes, no other. *)
Fixpoint credit_rows (rows : list UserBalance) (uid amount : Z)
  : list UserBalance :=
  match rows with
  | [] => []
  | r :: rest =>
      if ub_user_id r =? uid
      then mkUserBalance (ub_user_id r) (ub_balance r + amount) :: rest
      else r :: credit_rows rest uid amount
  end.

(** Whether the user has a balance row: whether [if balance:] is taken. *)
Definition has_account (rows : list UserBalance) (uid : Z) : bool :=
  existsb (fun r => ub_user_id r =? uid) rows.

(** ** The settlement engine ([resolve_bets]) *)

Module Settlement.

Definition is_winner (outcome_is_complete : bool) (bet : Bet) : bool :=
  ((b_direction bet =? "will_complete")%string && outcome_is_complete)
  || ((b_direction bet =? "will_fail")%string && negb outcome_is_complete).

(** The rows of
    [db.query(Bet).filter(Bet.commitment_id == commitment.id,
                          Bet.resolved == False)]. *)
Definition selected (commitment : Commitment) (bet : Bet) : bool :=
  (b_commitment_id bet =? c_id commitment) && negb (b_resolved bet).

Definition unresolved_bets (db : DB) (commitment : Commitment) : list Bet :=
  filter (selected commitment) (bets db).

(** [int(share)] with [share = (bet.amount / total_winner_stakes) * pot]. *)
Definition int_share (amount total_winner_stakes pot : Z) : Z :=
  Py.int_of_float
    (Py.fmul_int (Py.truediv amount total_winner_stakes) pot).

Definition winner_payout (total_winner_stakes pot : Z) (bet : Bet) : Z :=
  if total_winner_stakes >? 0
  then b_amount bet + int_share (b_amount bet) total_winner_stakes pot
  else b_amount bet.

Definition loser_payout (bet : Bet) : Z := - b_amount bet.

(** What the two loops leave in a row of [bets].  They assign to the row
    objects that the query returned, so every selected row is resolved
    where it is, with the payout of its side, and the others are
    untouched. *)
Definition settle_row (commitment : Commitment) (outcome_is_complete : bool)
    (total_winner_stakes pot : Z) (bet : Bet) : Bet :=
  if selected commitment bet
  then mkBet (b_id bet) (b_commitment_id bet) (b_bettor_id bet)
             (b_direction bet) (b_amount bet) true
             (Some (if is_winner outcome_is_complete bet
                    then winner_payout total_winner_stakes pot bet
                    else loser_payout bet))
  else bet.

(** The body of the loop over the winners, on the balances: the winner's
    row is fetched and, [if balance:], credited. *)
Definition credit_winner (total_winner_stakes pot : Z)
    (rows : list UserBalance) (bet : Bet) : list UserBalance :=
  credit_rows rows (b_bettor_id bet) (winner_payout total_winner_stakes pot bet).

(** The undistributed part of the pot: what the losers staked minus what
    the winners were paid beyond their own stakes. *)
Definition remainder_of (winners : list Bet) (total_winner_stakes pot : Z)
  : Z :=
  pot - Py.sum (fun b => winner_payout total_winner_stakes pot b - b_amount b)
               winners.

Definition resolve_bets (db : DB) (commitment : Commitment) : response unit :=
  let bets_ := unresolved_bets db commitment in
  match bets_ with
  | [] => Returned tt db
  | _ :: _ =>
      let outcome_is_complete := (c_status commitment =? "completed")%string in
      let winners := filter (is_winner outcome_is_complete) bets_ in
      let losers :=
        filter (fun b => negb (is_winner outcome_is_complete b)) bets_ in
      let pot := Py.sum b_amount losers in
      let total_winner_stakes := Py.sum b_amount winners in
      Returned tt
        (mkDB (users db)
              (fold_left (credit_winner total_winner_stakes pot) winners
                         (balances db))
              (commitments db)
              (map (settle_row commitment outcome_is_complete
                               total_winner_stakes pot) (bets db))
              (context_messages db) (coaching_messages db))
  end.

(** The locals of [resolve_bets], by name. *)
Definition outcome_is_complete (commitment : Commitment) : bool :=
  (c_status commitment =? "completed")%string.
Definition winners (db : DB) (commitment : Commitment) : list Bet :=
  filter (is_winner (outcome_is_complete commitment))
         (unresolved_bets db commitment).
Definition losers (db : DB) (commitment : Commitment) : list Bet :=
  filter (fun b => negb (is_winner (outcome_is_complete commitment) b))
         (unresolved_bets db commitment).
Definition pot (db : DB) (commitment : Commitment) : Z :=
  Py.sum b_amount (losers db commitment).
Definition total_winner_stakes (db : DB) (commitment : Commitment) : Z :=
  Py.sum b_amount (winners db commitment).

(** The rounding remainder of the settlement that [resolve_bets] performs
    on [db]. *)
Definition remainder (db : DB) (commitment : Commitment) : Z :=
  remainder_of (winners db commitment) (total_winner_stakes db commitment)
               (pot db commitment).

(** The state that [resolve_bets] leaves. *)
Definition settled (db : DB) (commitment : Commitment) : DB :=
  final_db (resolve_bets db commitment).

End Settlement.

(** ** Accounts ([register], [get_balance]) *)

Module Accounts.

(** [register]: the user row, then the balance row with the starting
    grant.  The password and the token are outside the ledger. *)
Definition register (db : DB) (email : string) : response Z :=
  match find (fun u => (u_email u =? email)%string) (users db) with
  | Some _ => Raised (mkHTTPException 400 "Email already registered") db
  | None =>
      let uid := next_id (map u_id (users db)) in
      Returned uid
        (mkDB (users db ++ [mkUser uid email])
              (balances db ++ [mkUserBalance uid 500])
              (commitments db) (bets db)
              (context_messages db) (coaching_messages db))
  end.

Definition get_balance (db : DB) (current_user : Z) : response Z :=
  match find_balance db current_user with
  | Some balance => Returned (ub_balance balance) db
  | None =>
      Returned 500
        (set_balances db (balances db ++ [mkUserBalance current_user 500]))
  end.

End Accounts.

(** ** The lifecycle controller *)

Module Lifecycle.

Definition create_commitment (db : DB) (deadline : Z) (current_user : Z)
  : response Commitment :=
  let commitment :=
    mkCommitment (next_id (map c_id (commitments db))) current_user deadline
                 "pending" None None None in
  Returned commitment (set_commitments db (commitments db ++ [commitment])).

Definition delete_commitment (db : DB) (commitment_id : Z) (current_user : Z)
  : response unit :=
  match find_owned_commitment db commitment_id current_user with
  | None =>
      Raised (mkHTTPException 404
        "Commitment not found or you don't have permission to delete it") db
  | Some commitment =>
      let bets_count :=
        Z.of_nat (List.length (filter (fun b => b_commitment_id b =? commitment_id)
                                 (bets db))) in
      if bets_count >? 0
      then Raised (mkHTTPException 400
             "Cannot delete commitment with existing bets") db
      else
        Returned tt
          (mkDB (users db) (balances db)
                (filter (fun c => negb (c_id c =? c_id commitment))
                        (commitments db))
                (bets db)
                (filter (fun m => negb (m_commitment_id m =? commitment_id))
                        (context_messages db))
                (filter (fun m => negb (m_commitment_id m =? commitment_id))
                        (coaching_messages db)))
  end.

(** [db.add(CommitmentContextMessage(commitment_id=..., role=...,
    content=...))]. *)
Definition add_context (db : DB) (commitment_id : Z) (role content : string)
  : DB :=
  mkDB (users db) (balances db) (commitments db) (bets db)
       (context_messages db ++
          [mkMessage (next_id (map m_id (context_messages db))) commitment_id
                     role content])
       (coaching_messages db).

(** [generate_ai_questions]: [questions] are the questions that the AI
    client gave; each is stored as a context message. *)
Definition generate_ai_questions (db : DB) (commitment_id : Z)
    (questions : list string) (current_user : Z) : response (list string) :=
  match find_owned_commitment db commitment_id current_user with
  | None => Raised (mkHTTPException 404 "Commitment not found") db
  | Some commitment =>
      Returned questions
        (fold_left (fun d question => add_context d (c_id commitment) "ai"
                                                  question)
                   questions db)
  end.

(** [submit_ai_answer]. *)
Definition submit_ai_answer (db : DB) (commitment_id : Z) (answer : string)
    (current_user : Z) : response unit :=
  match find_owned_commitment db commitment_id current_user with
  | None => Raised (mkHTTPException 404 "Commitment not found") db
  | Some commitment =>
      Returned tt (add_context db (c_id commitment) "user" answer)
  end.

(** [CommitmentCompleteRequest]. *)
Record CommitmentCompleteRequest := mkCompleteRequest {
  completed : bool;
  completion_report : option string;
  evidence_url : option string
}.

(** The assignments to the fetched commitment: the first row with this id
    and this owner changes. *)
Fixpoint update_owned (rows : list Commitment) (cid uid : Z)
    (updated : Commitment) : list Commitment :=
  match rows with
  | [] => []
  | c :: rest =>
      if (c_id c =? cid) && (c_owner_id c =? uid)
      then updated :: rest
      else c :: update_owned rest cid uid updated
  end.

(** The assignments of [complete_commitment] to the fetched commitment. *)
Definition resolve_record (commitment : Commitment)
    (data : CommitmentCompleteRequest) (now : Z) : Commitment :=
  mkCommitment (c_id commitment) (c_owner_id commitment)
               (c_deadline commitment)
               (if completed data then "completed" else "failed")
               (completion_report data) (evidence_url data) (Some now).

(** The end of [complete_commitment]: [coaching] is what the call of the
    coach gave, [Some] text, stored as a coaching message, or [None] when
    it raised, which the endpoint swallows. *)
Definition store_coaching (db : DB) (commitment : Commitment)
    (coaching : option string) : DB :=
  match coaching with
  | Some content =>
      mkDB (users db) (balances db) (commitments db) (bets db)
           (context_messages db)
           (coaching_messages db ++
              [mkMessage (next_id (map m_id (coaching_messages db)))
                         (c_id commitment) "ai" content])
  | None => db
  end.

(** [complete_commitment].  [now] is [datetime.utcnow()]. *)
Definition complete_commitment (db : DB) (commitment_id : Z)
    (data : CommitmentCompleteRequest) (current_user : Z) (now : Z)
    (coaching : option string) : response Commitment :=
  match find_owned_commitment db commitment_id current_user with
  | None => Raised (mkHTTPException 404 "Commitment not found") db
  | Some commitment =>
      if negb (c_status commitment =? "pending")%string
      then Raised (mkHTTPException 400 "Commitment is already resolved") db
      else
        let commitment' := resolve_record commitment data now in
        let db1 :=
          set_commitments db
            (update_owned (commitments db) commitment_id current_user
                          commitment') in
        match Settlement.resolve_bets db1 commitment' with
        | Raised e db2 => Raised e db2
        | Returned _ db2 =>
            Returned commitment' (store_coaching db2 commitment' coaching)
        end
  end.

End Lifecycle.

(** ** The wager book ([create_bet], [delete_bet]) *)

Module Wagers.

(** [BetCreate]. *)
Record BetCreate := mkBetCreate {
  direction : string;
  amount : Z
}.

(** [balance.balance -= amount] is a credit of [- amount]. *)
Definition create_bet (db : DB) (commitment_id : Z) (data : BetCreate)
    (current_user : Z) (now : Z) : response Bet :=
  match find_commitment db commitment_id with
  | None => Raised (mkHTTPException 404 "Commitment not found") db
  | Some commitment =>
      if c_owner_id commitment =? current_user
      then Raised (mkHTTPException 400
             "You cannot bet on your own commitment") db
      else if negb (c_status commitment =? "pending")%string
      then Raised (mkHTTPException 400
             "Cannot bet on a resolved commitment") db
      else if c_deadline commitment <=? now
      then Raised (mkHTTPException 400
             "Cannot bet after deadline has passed") db
      else if negb ((direction data =? "will_complete")%string
                    || (direction data =? "will_fail")%string)
      then Raised (mkHTTPException 400 "Invalid bet direction") db
      else if amount data <=? 0
      then Raised (mkHTTPException 400 "Bet amount must be positive") db
      else
        let '(balance, db1) :=
          match find_balance db current_user with
          | Some balance => (balance, db)
          | None =>
              let balance := mkUserBalance current_user 500 in
              (balance, set_balances db (balances db ++ [balance]))
          end in
        if ub_balance balance <? amount data
        then Raised (mkHTTPException 400 "Insufficient balance") db1
        else
          let bet :=
            mkBet (next_id (map b_id (bets db1))) commitment_id current_user
                  (direction data) (amount data) false None in
          Returned bet
            (mkDB (users db1)
                  (credit_rows (balances db1) current_user (- amount data))
                  (commitments db1)
                  (bets db1 ++ [bet])
                  (context_messages db1) (coaching_messages db1))
  end.

Definition delete_bet (db : DB) (bet_id : Z) (current_user : Z)
  : response unit :=
  match find_bet db bet_id with
  | None => Raised (mkHTTPException 404 "Bet not found") db
  | Some bet =>
      if negb (b_bettor_id bet =? current_user)
      then Raised (mkHTTPException 403 "You can only delete your own bets") db
      else if b_resolved bet
      then Raised (mkHTTPException 400 "Cannot delete a resolved bet") db
      else
        let not_pending :=
          match find_commitment db (b_commitment_id bet) with
          | Some commitment => negb (c_status commitment =? "pending")%string
          | None => false
          end in
        if not_pending
        then Raised (mkHTTPException 400
               "Cannot delete bet on a resolved goal") db
        else
          Returned tt
            (mkDB (users db)
                  (credit_rows (balances db) current_user (b_amount bet))
                  (commitments db)
                  (filter (fun b => negb (b_id b =? b_id bet)) (bets db))
                  (context_messages db) (coaching_messages db))
  end.

End Wagers.

(** ** Histories of calls and the ledger's books *)

Module Ledger.

Import Lifecycle Wagers.

(** A call of an endpoint that writes to the tables of the model, with its
    arguments.  The other writing endpoints touch only what the model
    leaves out: the prediction columns and the comments. *)
Inductive call : Type :=
| Register (email : string)
| GetBalance (current_user : Z)
| CreateCommitment (deadline current_user : Z)
| DeleteCommitment (commitment_id current_user : Z)
| GenerateAiQuestions (commitment_id : Z) (questions : list string)
    (current_user : Z)
| SubmitAiAnswer (commitment_id : Z) (answer : string) (current_user : Z)
| CompleteCommitment (commitment_id : Z) (data : CommitmentCompleteRequest)
    (current_user now : Z) (coaching : option string)
| CreateBet (commitment_id : Z) (data : BetCreate) (current_user now : Z)
| DeleteBet (bet_id current_user : Z).

(** The committed state after the call, whether it returned or raised. *)
Definition exec (db : DB) (c : call) : DB :=
  match c with
  | Register email => final_db (Accounts.register db email)
  | GetBalance u => final_db (Accounts.get_balance db u)
  | CreateCommitment deadline u => final_db (create_commitment db deadline u)
  | DeleteCommitment cid u => final_db (delete_commitment db cid u)
  | GenerateAiQuestions cid questions u =>
      final_db (generate_ai_questions db cid questions u)
  | SubmitAiAnswer cid answer u => final_db (submit_ai_answer db cid answer u)
  | CompleteCommitment cid data u now coaching =>
      final_db (complete_commitment db cid data u now coaching)
  | CreateBet cid data u now => final_db (create_bet db cid data u now)
  | DeleteBet bid u => final_db (delete_bet db bid u)
  end.

Definition run (db : DB) (history : list call) : DB :=
  fold_left exec history db.

(** The sum of all balances. *)
Definition total_balances (db : DB) : Z := Py.sum ub_balance (balances db).

(** The sum of the amounts of the wagers that are not resolved. *)
Definition staked (db : DB) : Z :=
  Py.sum b_amount (filter (fun b => negb (b_resolved b)) (bets db)).

(** What the call granted: every balance row is created with the
    starting grant of 500, by [register], [get_balance] or [create_bet]. *)
Definition granted (db : DB) (c : call) : Z :=
  500 * (Z.of_nat (List.length (balances (exec db c)))
         - Z.of_nat (List.length (balances db))).

(** The rounding remainder that the call left undistributed: that of the
    settlement, when the call is a resolution that went through. *)
Definition remainder_left (db : DB) (c : call) : Z :=
  match c with
  | CompleteCommitment cid data u now coaching =>
      match complete_commitment db cid data u now coaching with
      | Returned commitment _ => Settlement.remainder db commitment
      | Raised _ _ => 0
      end
  | _ => 0
  end.

(** The books kept along a history: the grants issued and the remainders
    left so far. *)
Record books := mkBooks {
  state : DB;
  grants : Z;
  remainders : Z
}.

Definition opening : books := mkBooks empty_db 0 0.

Definition post (b : books) (c : call) : books :=
  mkBooks (exec (state b) c)
          (grants b + granted (state b) c)
          (remainders b + remainder_left (state b) c).

Definition audit (history : list call) : books :=
  fold_left post history opening.

(** The books balance: balances, stakes and remainders make the grants. *)
Definition balanced (b : books) : Prop :=
  total_balances (state b) + staked (state b) + remainders b = grants b.

(** A wager is linked when its bettor has a balance row and its commitment
    is in the registry. *)
Definition linked (rows : list UserBalance) (cids : list Z) (b : Bet) : Prop :=
  has_account rows (b_bettor_id b) = true /\ In (b_commitment_id b) cids.

(** What every state that a history leads to satisfies: the ids of the
    wagers and of the commitments are keys, and every wager is linked. *)
Definition sound (db : DB) : Prop :=
  NoDup (map b_id (bets db))
  /\ NoDup (map c_id (commitments db))
  /\ Forall (linked (balances db) (map c_id (commitments db))) (bets db).

End Ledger.

(** ** Scenarios *)

Module Scenario.

Import Lifecycle Wagers Ledger.

(** Four users sign up, and the first publishes a commitment, with a
    deadline at 1000. *)
Definition signups : list call :=
  [Register "owner@x"; Register "a@x"; Register "b@x"; Register "c@x";
   CreateCommitment 1000 1].

(** The example of the specification: A stakes 100 and B stakes 50 on
    completion, C stakes 60 on failure. *)
Definition example_bets : list call :=
  signups ++
  [CreateBet 1 (mkBetCreate "will_complete" 100) 2 10;
   CreateBet 1 (mkBetCreate "will_complete" 50) 3 11;
   CreateBet 1 (mkBetCreate "will_fail" 60) 4 12].

Definition resolve_completed : call :=
  CompleteCommitment 1 (mkCompleteRequest true None None) 1 20 None.

Definition resolve_failed : call :=
  CompleteCommitment 1 (mkCompleteRequest false None None) 1 20 None.

(** A stakes 1 and B stakes 48 on completion, C stakes 49 on failure. *)
Definition split_bets : list call :=
  signups ++
  [CreateBet 1 (mkBetCreate "will_complete" 1) 2 10;
   CreateBet 1 (mkBetCreate "will_complete" 48) 3 11;
   CreateBet 1 (mkBetCreate "will_fail" 49) 4 12].

(** A alone stakes 100 on completion. *)
Definition lone_bet : list call :=
  signups ++ [CreateBet 1 (mkBetCreate "will_complete" 100) 2 10].

(** The commitment of the scenarios once it is resolved, as completed and
    as failed. *)
Definition completed_commitment : Commitment :=
  mkCommitment 1 1 1000 "completed" None None (Some 20).

Definition failed_commitment : Commitment :=
  mkCommitment 1 1 1000 "failed" None None (Some 20).

(** Two states that no history of calls leads to: a wager of user 2 on the
    commitment of user 1, resolved or still pending, and no balance row for
    user 2. *)
Definition orphan_commitment : Commitment := completed_commitment.

Definition orphan_bet : Bet := mkBet 1 1 2 "will_complete" 10 false None.

Definition orphan_db : DB :=
  mkDB [mkUser 1 "owner@x"; mkUser 2 "a@x"] [mkUserBalance 1 500]
       [orphan_commitment] [orphan_bet] [] [].

Definition orphan_pending_db : DB :=
  mkDB [mkUser 1 "owner@x"; mkUser 2 "a@x"] [mkUserBalance 1 500]
       [mkCommitment 1 1 1000 "pending" None None None] [orphan_bet] [] [].

Definition payouts (db : DB) : list (option Z) := map b_payout (bets db).

Definition balance_list (db : DB) : list (Z * Z) :=
  map (fun r => (ub_user_id r, ub_balance r)) (balances db).

End Scenario.

(** ** The AI client ([ai_client.py]) *)

Module AiClient.

Unset Elimination Schemes.

(** A JSON value, as [json.loads] gives it. *)
Inductive json : Type :=
| JNull
| JBool (b : bool)
| JNumber (x : float)
| JString (s : string)
| JList (items : list json)
| JDict (fields : list (string * json)).

Set Elimination Schemes.




(** [compute_heuristic_probability]. *)
Definition compute_heuristic_probability
    (hours_required hours_available : float) (days_until_due : Z)
    (friend_support_score user_success_rate : float) : float :=
  if PrimFloat.leb hours_required 0 then 1%float
  else
    let ratio := (hours_available / Py.max hours_required 0.1)%float in
    let ratio := Py.max 0 (Py.min ratio 2) in
    let base_prob := Py.min 1 (ratio / 1.5)%float in
    let time_factor :=
      Py.min 1 (Py.float_of_int days_until_due / 14)%float in
    let friend_factor :=
      (0.1 * Py.max (-1) (Py.min friend_support_score 1))%float in
    let history_factor := (0.1 * (user_success_rate - 0.5))%float in
    let prob :=
      (base_prob * 0.5 + time_factor * 0.3 + friend_factor + history_factor
       + 0.1)%float in
    let prob := Py.max 0 (Py.min prob 1) in
    Py.round3 prob.

End AiClient.

(** ** The words of the specification *)

Module Spec.

(** The share of a winner as the specification words it:
    [floor(amount / totalWinnerStake * pot)], over the reals. *)
Definition share (amount total_winner_stake pot : Z) : Z :=
  (amount * pot) / total_winner_stake.

Definition winner_payout (amount total_winner_stake pot : Z) : Z :=
  amount + share amount total_winner_stake pot.

(** The kinds of failure that the specification names. *)
Inductive error_kind : Type :=
| NotFound
| Forbidden
| InvalidState
| InvalidInput
| InsufficientFunds
| Conflict.

(** The status under which the backend raises each kind: 404 for what is
    not found, 403 for what the caller may not do (as [delete_bet] and
    [delete_comment] raise it), and 400 for every other refusal, which the
    backend tells apart by the [detail] only. *)
Definition status_of (k : error_kind) : Z :=
  match k with
  | NotFound => 404
  | Forbidden => 403
  | InvalidState | InvalidInput | InsufficientFunds | Conflict => 400
  end.


(** The balance that a user reads, when the user has a balance row. *)
Definition balance_of (db : DB) (uid : Z) : option Z :=
  option_map ub_balance (find_balance db uid).



(** A call is rejected when it raises. *)
Definition rejected {A : Type} (r : response A) : Prop := raised r <> None.

(** An endpoint fails with the kind [k]. *)
Definition fails_with {A : Type} (r : response A) (k : error_kind) : Prop :=
  exists e db, r = Raised e db /\ status_code e = status_of k.

End Spec.

(** ** Statistics ([get_user_stats], [get_my_stats]) *)

Module Stats.

Record UserStats := mkUserStats {
  completed_count : Z;
  failed_count : Z;
  pending_count : Z;
  success_rate : float
}.

(** [sum(1 for c in commitments if c.status == status)]. *)
Definition count (status : string) (rows : list Commitment) : Z :=
  Py.sum (fun _ => 1) (filter (fun c => (c_status c =? status)%string) rows).

Definition get_user_stats (db : DB) (user_id : Z) : UserStats :=
  let commitments_ :=
    filter (fun c => c_owner_id c =? user_id) (commitments db) in
  let completed := count "completed" commitments_ in
  let failed := count "failed" commitments_ in
  let pending := count "pending" commitments_ in
  let total_resolved := completed + failed in
  let success_rate :=
    if total_resolved >? 0 then Py.truediv completed total_resolved
    else 0.5%float in
  mkUserStats completed failed pending success_rate.

(** [UserStatsOut]. *)
Record UserStatsOut := mkUserStatsOut {
  out_display_name : string;
  out_email : string;
  out_completed_count : Z;
  out_failed_count : Z;
  out_pending_count : Z;
  out_success_rate : float;
  out_balance : Z
}.

(** [get_my_stats]; the display name and the e-mail are those of the
    current user. *)
Definition get_my_stats (db : DB) (current_user : Z)
    (display_name email : string) : UserStatsOut :=
  let stats := get_user_stats db current_user in
  let balance := find_balance db current_user in
  mkUserStatsOut display_name email (completed_count stats)
    (failed_count stats) (pending_count stats) (success_rate stats)
    (match balance with
     | Some balance => ub_balance balance
     | None => 500
     end).

End Stats.

(** ** The predictor and the coach ([ai_client.py]) *)

Module Predictor.

Record Prediction := mkPrediction {
  probability : float;
  explanation : string;
  confidence_label : string
}.

Definition fallback : Prediction :=
  mkPrediction 0.5 "Unable to generate AI prediction. Using neutral estimate."
               "low".

(** [s.split(fence)[0]]: what comes before the first fence of three
    backticks. *)
Fixpoint before_fence (s : string) : string :=
  if String.prefix "```" s then EmptyString
  else match s with
       | EmptyString => EmptyString
       | String ch rest => String ch (before_fence rest)
       end.

(** [s[n:]]. *)
Fixpoint drop (n : nat) (s : string) : string :=
  match n, s with
  | O, _ => s
  | S n', String _ rest => drop n' rest
  | S _, EmptyString => EmptyString
  end.

(** The removal of a markdown code block: for a content that starts with a
    fence, [content.split(fence)[1]] is what lies between that fence and
    the next one, and a leading [json] is cut off. *)
Definition unfence (content : string) : string :=
  if String.prefix "```" content
  then
    let content := before_fence (drop 3 content) in
    if String.prefix "json" content then drop 4 content else content
  else content.

(** Whether a string is free of backticks. *)
Fixpoint no_backtick (s : string) : bool :=
  match s with
  | EmptyString => true
  | String ch rest => negb (Ascii.eqb ch "`"%char) && no_backtick rest
  end.

(** [result.get(key, default)] on the dict that [json.loads] built, where
    the last of several values of a key is the one kept. *)
Definition dict_get (fields : list (string * AiClient.json)) (key : string)
    (default : AiClient.json) : AiClient.json :=
  match find (fun kv => (fst kv =? key)%string) (rev fields) with
  | Some kv => snd kv
  | None => default
  end.

Section Adapter.

(** Python's [str.strip], [json.loads] ([None] when it raises), [float]
    ([None] when it raises), [str] and [str.lower]. *)
Variable strip : string -> string.
Variable loads : string -> option AiClient.json.
Variable float_of : AiClient.json -> option float.
Variable str_of : AiClient.json -> string.
Variable lower : string -> string.

(** The [try] block of [predict_commitment_outcome]; [reply] is what
    [await chatbot.ask(...)] gave, [None] when it raised.  A reply that is
    not a JSON object has no [get], which raises. *)
Definition predict_commitment_outcome (reply : option string) : Prediction :=
  match reply with
  | None => fallback
  | Some response =>
      match loads (unfence (strip response)) with
      | Some (AiClient.JDict result) =>
          match float_of (dict_get result "probability"
                                   (AiClient.JNumber 0.5)) with
          | None => fallback
          | Some probability =>
              let probability := Py.max 0 (Py.min 1 probability) in
              let explanation :=
                str_of (dict_get result "explanation"
                          (AiClient.JString
                             "Unable to generate explanation.")) in
              let confidence :=
                lower (str_of (dict_get result "confidence_label"
                                        (AiClient.JString "medium"))) in
              let confidence :=
                if existsb (String.eqb confidence) ["high"; "medium"; "low"]
                then confidence else "medium" in
              mkPrediction probability explanation confidence
          end
      | _ => fallback
      end
  end.



End Adapter.

End Predictor.

(** ** Comments ([list_comments], [create_comment], [delete_comment]) *)

Module Comments.

(** A row of [comments]; the table is kept in the order of creation, which
    is the order that [list_comments] asks for. *)
Record Comment := mkComment {
  cm_id : Z;
  cm_commitment_id : Z;
  cm_user_id : Z;
  cm_content : string
}.

(** What an endpoint leaves: its result or the error it raised, and the
    table of comments. *)
Definition outcome (A : Type) : Type := (HTTPException + A) * list Comment.

Section Endpoints.

(** Python's [str.strip]. *)
Variable strip : string -> string.

Definition list_comments (db : DB) (rows : list Comment) (commitment_id : Z)
  : outcome (list Comment) :=
  match find_commitment db commitment_id with
  | None => (inl (mkHTTPException 404 "Goal not found"), rows)
  | Some _ =>
      (inr (filter (fun c => cm_commitment_id c =? commitment_id) rows), rows)
  end.

Definition create_comment (db : DB) (rows : list Comment) (commitment_id : Z)
    (content : string) (current_user : Z) : outcome Comment :=
  match find_commitment db commitment_id with
  | None => (inl (mkHTTPException 404 "Goal not found"), rows)
  | Some _ =>
      if (strip content =? "")%string
      then (inl (mkHTTPException 400 "Comment cannot be empty"), rows)
      else
        let comment :=
          mkComment (next_id (map cm_id rows)) commitment_id current_user
                    (strip content) in
        (inr comment, rows ++ [comment])
  end.

End Endpoints.

Definition delete_comment (rows : list Comment) (comment_id : Z)
    (current_user : Z) : outcome unit :=
  match find (fun c => cm_id c =? comment_id) rows with
  | None => (inl (mkHTTPException 404 "Comment not found"), rows)
  | Some comment =>
      if negb (cm_user_id comment =? current_user)
      then (inl (mkHTTPException 403 "You can only delete your own comments"),
            rows)
      else (inr tt, filter (fun c => negb (cm_id c =? cm_id comment)) rows)
  end.

End Comments.

(** ** What the ledger keeps *)

Module Invariants.

(** No balance is negative and every stake is positive. *)
Definition solvent (db : DB) : Prop :=
  Forall (fun r => 0 <= ub_balance r) (balances db)
  /\ Forall (fun b => 0 < b_amount b) (bets db).

(** A wager is resolved exactly when its commitment is no longer
    pending. *)
Definition in_step (db : DB) : Prop :=
  Forall (fun b => forall c,
            find_commitment db (b_commitment_id b) = Some c ->
            b_resolved b = negb (c_status c =? "pending")%string)
         (bets db).

(** A float that is a NaN or has the sign bit clear. *)
Definition unsigned (x : spec_float) : Prop :=
  match x with
  | S754_zero s | S754_infinity s | S754_finite s _ _ => s = false
  | S754_nan => True
  end.

(** A resolved wager carries its payout, the stake lost or the stake and
    more; a wager that is not resolved carries none. *)
Definition paid (b : Bet) : Prop :=
  if b_resolved b
  then exists payout,
         b_payout b = Some payout
         /\ (payout = - b_amount b \/ b_amount b <= payout)
  else b_payout b = None.

(** The users of a ledger are enrolled when their e-mails and their ids are
    keys and each of them holds a balance row. *)
Definition enrolled (db : DB) : Prop :=
  NoDup (map u_email (users db))
  /\ NoDup (map u_id (users db))
  /\ Forall (fun u => has_account (balances db) (u_id u) = true) (users db).

(** Every wager on the books is on one of the two sides, and is not held
    by the owner of its commitment. *)
Definition arms_length (db : DB) : Prop :=
  Forall (fun b =>
            (b_direction b = "will_complete" \/ b_direction b = "will_fail")
            /\ forall c, find_commitment db (b_commitment_id b) = Some c ->
                         c_owner_id c <> b_bettor_id b) (bets db).

End Invariants.

(** * Properties *)

(** ** Rows and sums *)

Section Rows.

Lemma sum_nil {A : Type} (f : A -> Z) : Py.sum f [] = 0.
Proof. reflexivity. Qed.

Lemma sum_cons {A : Type} (f : A -> Z) (x : A) (xs : list A) :
  Py.sum f (x :: xs) = f x + Py.sum f xs.
Proof. reflexivity. Qed.

Lemma sum_app {A : Type} (f : A -> Z) (xs ys : list A) :
  Py.sum f (xs ++ ys) = Py.sum f xs + Py.sum f ys.
Proof.
  unfold Py.sum. induction xs as [|x xs IH]; simpl; [reflexivity|].
  rewrite IH. lia.
Qed.

(** A filter and its complement split a sum. *)
Lemma sum_partition {A : Type} (f : A -> Z) (p : A -> bool) (xs : list A) :
  Py.sum f xs
  = Py.sum f (filter p xs) + Py.sum f (filter (fun x => negb (p x)) xs).
Proof.
  unfold Py.sum. induction xs as [|x xs IH]; simpl; [reflexivity|].
  destruct (p x); simpl; lia.
Qed.

Lemma sum_plus {A : Type} (f g : A -> Z) (xs : list A) :
  Py.sum (fun x => f x + g x) xs = Py.sum f xs + Py.sum g xs.
Proof.
  unfold Py.sum. induction xs as [|x xs IH]; simpl; lia.
Qed.

Lemma sum_ext {A : Type} (f g : A -> Z) (xs : list A) :
  (forall x, In x xs -> f x = g x) -> Py.sum f xs = Py.sum g xs.
Proof.
  unfold Py.sum. induction xs as [|x xs IH]; simpl; intros H; [reflexivity|].
  rewrite (H x) by now left. rewrite IH; [reflexivity|].
  intros y Hy. apply H. now right.
Qed.

Lemma has_account_find (rows : list UserBalance) (uid : Z) :
  has_account rows uid = false
  <-> find (fun r => ub_user_id r =? uid) rows = None.
Proof.
  unfold has_account. induction rows as [|r rows IH]; simpl; [tauto|].
  destruct (ub_user_id r =? uid); simpl; [split; discriminate | exact IH].
Qed.

Lemma has_account_found (rows : list UserBalance) (uid : Z) :
  has_account rows uid = true
  <-> exists r, find (fun r => ub_user_id r =? uid) rows = Some r.
Proof.
  destruct (has_account rows uid) eqn:E.
  - split; [intros _ | reflexivity].
    destruct (find _ rows) as [r|] eqn:F; [now exists r|].
    apply has_account_find in F. congruence.
  - apply has_account_find in E. rewrite E.
    split; [discriminate | intros [r Hr]; discriminate].
Qed.

Lemma has_account_app (rows more : list UserBalance) (uid : Z) :
  has_account (rows ++ more) uid
  = has_account rows uid || has_account more uid.
Proof. unfold has_account. apply existsb_app. Qed.

(** A credit keeps the rows where they are and whose they are. *)
Lemma credit_rows_ids (rows : list UserBalance) (uid amount : Z) :
  map ub_user_id (credit_rows rows uid amount) = map ub_user_id rows.
Proof.
  induction rows as [|r rows IH]; simpl; [reflexivity|].
  destruct (ub_user_id r =? uid); simpl; [reflexivity | now rewrite IH].
Qed.

Lemma credit_rows_length (rows : list UserBalance) (uid amount : Z) :
  List.length (credit_rows rows uid amount) = List.length rows.
Proof.
  rewrite <- (length_map ub_user_id), credit_rows_ids. apply length_map.
Qed.

Lemma has_account_ids (rows rows' : list UserBalance) (uid : Z) :
  map ub_user_id rows = map ub_user_id rows' ->
  has_account rows uid = has_account rows' uid.
Proof.
  unfold has_account. revert rows'.
  induction rows as [|r rows IH]; intros [|r' rows'] H; simpl in *;
    try discriminate; [reflexivity|].
  injection H as H1 H2. rewrite H1. f_equal. now apply IH.
Qed.

Lemma has_account_credit (rows : list UserBalance) (uid amount u : Z) :
  has_account (credit_rows rows uid amount) u = has_account rows u.
Proof. apply has_account_ids, credit_rows_ids. Qed.

(** Without a row of the user, [if balance:] skips the credit. *)
Lemma credit_rows_skipped (rows : list UserBalance) (uid amount : Z) :
  has_account rows uid = false -> credit_rows rows uid amount = rows.
Proof.
  unfold has_account. induction rows as [|r rows IH]; simpl; [reflexivity|].
  destruct (ub_user_id r =? uid); simpl; [discriminate|].
  intros H. now rewrite IH.
Qed.

(** With one, the total of the balances moves by the amount. *)
Lemma credit_rows_total (rows : list UserBalance) (uid amount : Z) :
  has_account rows uid = true ->
  Py.sum ub_balance (credit_rows rows uid amount)
  = Py.sum ub_balance rows + amount.
Proof.
  unfold has_account, Py.sum.
  induction rows as [|r rows IH]; simpl; [discriminate|].
  destruct (ub_user_id r =? uid); simpl; intros H; [lia|].
  rewrite IH by assumption. lia.
Qed.

(** What a user reads after a credit. *)
Lemma find_credit_rows_same (rows : list UserBalance) (uid amount : Z) :
  find (fun r => ub_user_id r =? uid) (credit_rows rows uid amount)
  = option_map (fun r => mkUserBalance (ub_user_id r) (ub_balance r + amount))
               (find (fun r => ub_user_id r =? uid) rows).
Proof.
  induction rows as [|r rows IH]; simpl; [reflexivity|].
  destruct (ub_user_id r =? uid) eqn:E; simpl; rewrite E; [reflexivity|].
  exact IH.
Qed.

Lemma find_credit_rows_other (rows : list UserBalance) (uid amount u : Z) :
  u <> uid ->
  find (fun r => ub_user_id r =? u) (credit_rows rows uid amount)
  = find (fun r => ub_user_id r =? u) rows.
Proof.
  intros Hu. induction rows as [|r rows IH]; simpl; [reflexivity|].
  destruct (ub_user_id r =? uid) eqn:E; simpl.
  - apply Z.eqb_eq in E.
    destruct (ub_user_id r =? u) eqn:E'; [apply Z.eqb_eq in E'; lia|].
    reflexivity.
  - destruct (ub_user_id r =? u); [reflexivity | exact IH].
Qed.

Lemma find_none_all {A : Type} (p : A -> bool) (xs : list A) :
  (forall x, In x xs -> p x = false) -> find p xs = None.
Proof.
  induction xs as [|a xs IH]; simpl; intros H; [reflexivity|].
  rewrite (H a) by now left. apply IH. intros x Hx. apply H. now right.
Qed.

Lemma find_app_found {A : Type} (p : A -> bool) (xs ys : list A) (x : A) :
  find p xs = Some x -> find p (xs ++ ys) = Some x.
Proof.
  induction xs as [|a xs IH]; simpl; [discriminate|].
  destruct (p a); [trivial | exact IH].
Qed.

Lemma find_app_missing {A : Type} (p : A -> bool) (xs ys : list A) :
  find p xs = None -> find p (xs ++ ys) = find p ys.
Proof.
  induction xs as [|a xs IH]; simpl; [reflexivity|].
  destruct (p a); [discriminate | exact IH].
Qed.

(** The next id of a table is above every id in it. *)
Lemma next_id_above (ids : list Z) (i : Z) : In i ids -> i < next_id ids.
Proof.
  unfold next_id. induction ids as [|j ids IH]; cbn [fold_right In]; [tauto|].
  intros [-> | H]; [lia|]. specialize (IH H). lia.
Qed.

Lemma next_id_fresh (ids : list Z) : ~ In (next_id ids) ids.
Proof. intros H. apply next_id_above in H. lia. Qed.

End Rows.

(** ** The settlement engine *)

Module SettlementFacts.

Import Settlement.

Section OneSettlement.

Variable db : DB.
Variable commitment : Commitment.

Local Abbreviation outcome := (outcome_is_complete commitment).
Local Abbreviation stakes := (total_winner_stakes db commitment).
Local Abbreviation the_pot := (pot db commitment).

Lemma settle_row_not_selected (o : bool) (t p : Z) (rows : list Bet) :
  filter (selected commitment) rows = [] ->
  map (settle_row commitment o t p) rows = rows.
Proof.
  induction rows as [|b rows IH]; simpl; [reflexivity|].
  unfold settle_row at 1.
  destruct (selected commitment b); [discriminate|].
  intros H. now rewrite IH.
Qed.

(** Both paths of [resolve_bets], the early [return] and the loops, leave
    this state. *)
Lemma resolve_bets_state :
  resolve_bets db commitment =
  Returned tt
    (mkDB (users db)
          (fold_left (credit_winner stakes the_pot) (winners db commitment)
                     (balances db))
          (commitments db)
          (map (settle_row commitment outcome stakes the_pot) (bets db))
          (context_messages db) (coaching_messages db)).
Proof.
  unfold resolve_bets, total_winner_stakes, pot, winners, losers,
    outcome_is_complete.
  destruct (unresolved_bets db commitment) as [|b rest] eqn:E; [|reflexivity].
  simpl. rewrite settle_row_not_selected by exact E.
  now destruct db.
Qed.

Lemma settled_bets :
  bets (settled db commitment)
  = map (settle_row commitment outcome stakes the_pot) (bets db).
Proof. unfold settled. now rewrite resolve_bets_state. Qed.

Lemma settled_balances :
  balances (settled db commitment)
  = fold_left (credit_winner stakes the_pot) (winners db commitment)
              (balances db).
Proof. unfold settled. now rewrite resolve_bets_state. Qed.

Lemma settled_commitments :
  commitments (settled db commitment) = commitments db.
Proof. unfold settled. now rewrite resolve_bets_state. Qed.

(** The stakes of the wagers to settle: those of the winning side, and the
    pot. *)
Lemma stakes_split :
  Py.sum b_amount (unresolved_bets db commitment) = stakes + the_pot.
Proof.
  unfold total_winner_stakes, pot, winners, losers. apply sum_partition.
Qed.

Lemma settle_row_id (o : bool) (t p : Z) (b : Bet) :
  b_id (settle_row commitment o t p b) = b_id b.
Proof. unfold settle_row. now destruct (selected commitment b). Qed.

Lemma settle_row_bettor (o : bool) (t p : Z) (b : Bet) :
  b_bettor_id (settle_row commitment o t p b) = b_bettor_id b.
Proof. unfold settle_row. now destruct (selected commitment b). Qed.

Lemma settle_row_commitment (o : bool) (t p : Z) (b : Bet) :
  b_commitment_id (settle_row commitment o t p b) = b_commitment_id b.
Proof. unfold settle_row. now destruct (selected commitment b). Qed.

(** A settled row is no longer selected. *)
Lemma settle_row_done (o : bool) (t p : Z) (b : Bet) :
  selected commitment (settle_row commitment o t p b) = false.
Proof.
  unfold settle_row. destruct (selected commitment b) eqn:E; [|exact E].
  unfold selected. simpl. apply andb_false_r.
Qed.

(** After a settlement the commitment has no wager left to settle. *)
Lemma nothing_left_to_settle :
  unresolved_bets (settled db commitment) commitment = [].
Proof.
  unfold unresolved_bets. rewrite settled_bets.
  induction (bets db) as [|b rows IH]; simpl; [reflexivity|].
  now rewrite settle_row_done.
Qed.

(** A loser's row: resolved, with the stake as a pure loss. *)
Lemma loser_row (b : Bet) :
  In b (bets db) -> selected commitment b = true ->
  is_winner outcome b = false ->
  In (mkBet (b_id b) (b_commitment_id b) (b_bettor_id b) (b_direction b)
            (b_amount b) true (Some (- b_amount b)))
     (bets (settled db commitment)).
Proof.
  intros Hin Hsel Hlose. rewrite settled_bets.
  apply in_map_iff. exists b. split; [|exact Hin].
  unfold settle_row. now rewrite Hsel, Hlose.
Qed.

(** A winner's row: resolved, with the stake and the truncated share of the
    pot that the code computed. *)
Lemma winner_row (b : Bet) :
  In b (bets db) -> selected commitment b = true ->
  is_winner outcome b = true ->
  In (mkBet (b_id b) (b_commitment_id b) (b_bettor_id b) (b_direction b)
            (b_amount b) true (Some (winner_payout stakes the_pot b)))
     (bets (settled db commitment)).
Proof.
  intros Hin Hsel Hwin. rewrite settled_bets.
  apply in_map_iff. exists b. split; [|exact Hin].
  unfold settle_row. now rewrite Hsel, Hwin.
Qed.

(** The credits: the accounts stay the same accounts ... *)
Lemma fold_credit_accounts (t p : Z) (ws : list Bet)
    (rows : list UserBalance) :
  map ub_user_id (fold_left (credit_winner t p) ws rows) = map ub_user_id rows.
Proof.
  revert rows. induction ws as [|w ws IH]; intros rows; simpl; [reflexivity|].
  rewrite IH. apply credit_rows_ids.
Qed.

(** ... and their total grows by the payouts of the winning wagers whose
    bettor has a balance row, and of no other. *)
Lemma fold_credit_total (t p : Z) (ws : list Bet) (rows : list UserBalance) :
  Py.sum ub_balance (fold_left (credit_winner t p) ws rows)
  = Py.sum ub_balance rows
    + Py.sum (winner_payout t p)
             (filter (fun b => has_account rows (b_bettor_id b)) ws).
Proof.
  revert rows. induction ws as [|w ws IH]; intros rows.
  - cbn [fold_left filter]. rewrite sum_nil. lia.
  - cbn [fold_left filter]. rewrite IH. unfold credit_winner.
    rewrite (filter_ext _ (fun b => has_account rows (b_bettor_id b)))
      by (intros b; apply has_account_credit).
    destruct (has_account rows (b_bettor_id w)) eqn:E.
    + rewrite credit_rows_total by exact E. rewrite sum_cons. lia.
    + now rewrite credit_rows_skipped by exact E.
Qed.

Lemma settled_accounts (u : Z) :
  has_account (balances (settled db commitment)) u
  = has_account (balances db) u.
Proof.
  rewrite settled_balances. apply has_account_ids, fold_credit_accounts.
Qed.

Lemma settled_total :
  Py.sum ub_balance (balances (settled db commitment))
  = Py.sum ub_balance (balances db)
    + Py.sum (winner_payout stakes the_pot)
        (filter (fun b => has_account (balances db) (b_bettor_id b))
                (winners db commitment)).
Proof. rewrite settled_balances. apply fold_credit_total. Qed.

End OneSettlement.

End SettlementFacts.

(** The example of the specification: 140 and 70 to the winners, the loser
    loses 60, and the balances follow. *)
Lemma example_settlement :
  let db := Ledger.run empty_db
              (Scenario.example_bets ++ [Scenario.resolve_completed]) in
  Scenario.payouts db = [Some 140; Some 70; Some (-60)]
  /\ Scenario.balance_list db = [(1, 500); (2, 540); (3, 520); (4, 440)].
Proof. vm_compute. split; reflexivity. Qed.

(** C1: a settlement gives every winner the stake back and the floor of
    the winner's proportional share of the pot.  The code computes the share
    in binary64: with stakes 1 and 48 on the winning side and a pot of 49,
    the quotient 1/49 rounds below and its product with 49 is
    0.9999999999999999, which [int] truncates to 0.  The winner of stake 1
    is paid 1 where the specified payout is 2, and one unit of the pot is
    credited to nobody. *)
Theorem winner_share_truncated_below_floor :
  let db := Ledger.run empty_db
              (Scenario.split_bets ++ [Scenario.resolve_completed]) in
  Settlement.int_share 1 49 49 = 0
  /\ Spec.share 1 49 49 = 1
  /\ Scenario.payouts db = [Some 1; Some 96; Some (-49)]
  /\ Spec.winner_payout 1 49 49 = 2
  /\ Scenario.balance_list db = [(1, 500); (2, 500); (3, 548); (4, 451)].
Proof. vm_compute. repeat split; reflexivity. Qed.

(** ** Wagers of a bettor without a balance row *)

(** C8: in a settlement, a winning wager whose bettor has no balance row is
    resolved with its full payout, the bettor still has no balance row, and
    the balances grow by the payouts of the winners that have a row and by
    nothing else; the cancellation of a wager whose bettor has no balance
    row deletes the wager and leaves the balances as they were. *)
Theorem no_balance_row_no_credit :
  (forall (db : DB) (commitment : Commitment) (b : Bet),
      In b (bets db) ->
      Settlement.selected commitment b = true ->
      Settlement.is_winner (Settlement.outcome_is_complete commitment) b = true ->
      find_balance db (b_bettor_id b) = None ->
      let db' := Settlement.settled db commitment in
      In (mkBet (b_id b) (b_commitment_id b) (b_bettor_id b) (b_direction b)
                (b_amount b) true
                (Some (Settlement.winner_payout
                         (Settlement.total_winner_stakes db commitment)
                         (Settlement.pot db commitment) b)))
         (bets db')
      /\ find_balance db' (b_bettor_id b) = None
      /\ Ledger.total_balances db'
         = Ledger.total_balances db
           + Py.sum (Settlement.winner_payout
                       (Settlement.total_winner_stakes db commitment)
                       (Settlement.pot db commitment))
               (filter (fun w => has_account (balances db) (b_bettor_id w))
                       (Settlement.winners db commitment)))
  /\ (forall (db db' : DB) (bet_id current_user : Z),
        Wagers.delete_bet db bet_id current_user = Returned tt db' ->
        find_balance db current_user = None ->
        find_bet db' bet_id = None /\ balances db' = balances db).
Proof.
  split.
  - intros db commitment b Hin Hsel Hwin Hnone db'. subst db'.
    split; [now apply SettlementFacts.winner_row|]. split.
    + unfold find_balance. apply has_account_find.
      rewrite SettlementFacts.settled_accounts.
      now apply has_account_find.
    + apply SettlementFacts.settled_total.
  - intros db db' bet_id current_user Hdel Hnone.
    unfold Wagers.delete_bet in Hdel.
    destruct (find_bet db bet_id) as [bet|] eqn:Hbet; [|discriminate].
    destruct (negb (b_bettor_id bet =? current_user)); [discriminate|].
    destruct (b_resolved bet); [discriminate|].
    destruct (match find_commitment db (b_commitment_id bet) with
              | Some c => negb (c_status c =? "pending")%string
              | None => false
              end); [discriminate|].
    injection Hdel as <-. simpl. split.
    + apply find_some in Hbet. destruct Hbet as [_ Hid].
      apply Z.eqb_eq in Hid. unfold find_bet. simpl.
      apply find_none_all. intros x Hx. apply filter_In in Hx.
      destruct Hx as [_ Hx]. rewrite Hid in Hx.
      now apply negb_true_iff in Hx.
    + apply credit_rows_skipped. now apply has_account_find.
Qed.

Lemma no_balance_row_no_credit_witness :
  (In (mkBet 1 1 2 "will_complete" 10 true (Some 10))
      (bets (Settlement.settled Scenario.orphan_db Scenario.orphan_commitment))
   /\ find_balance
        (Settlement.settled Scenario.orphan_db Scenario.orphan_commitment) 2
      = None
   /\ Ledger.total_balances
        (Settlement.settled Scenario.orphan_db Scenario.orphan_commitment)
      = 500)
  /\ (find_bet (final_db (Wagers.delete_bet Scenario.orphan_pending_db 1 2)) 1
      = None
     /\ balances (final_db (Wagers.delete_bet Scenario.orphan_pending_db 1 2))
        = [mkUserBalance 1 500]).
Proof.
  split.
  - apply (proj1 no_balance_row_no_credit
             Scenario.orphan_db Scenario.orphan_commitment Scenario.orphan_bet);
      [left; reflexivity | reflexivity | reflexivity | reflexivity].
  - apply (proj2 no_balance_row_no_credit Scenario.orphan_pending_db
             (final_db (Wagers.delete_bet Scenario.orphan_pending_db 1 2)) 1 2);
      reflexivity.
Defined.

(** ** What the endpoints return and raise *)

Module EndpointFacts.

Import Lifecycle Wagers.

Lemma complete_commitment_returned (db db' : DB) (cid : Z)
    (data : CommitmentCompleteRequest) (u now : Z) (coaching : option string)
    (c' : Commitment) :
  complete_commitment db cid data u now coaching = Returned c' db' ->
  exists commitment,
    find_owned_commitment db cid u = Some commitment
    /\ c_status commitment = "pending"
    /\ c' = resolve_record commitment data now
    /\ db' = store_coaching
               (Settlement.settled
                  (set_commitments db
                     (update_owned (commitments db) cid u c')) c')
               c' coaching.
Proof.
  unfold complete_commitment, Settlement.settled.
  destruct (find_owned_commitment db cid u) as [commitment|]; [|discriminate].
  destruct (c_status commitment =? "pending")%string eqn:E; simpl;
    [|discriminate].
  rewrite SettlementFacts.resolve_bets_state. cbv iota.
  intros H. injection H as <- <-.
  exists commitment. apply String.eqb_eq in E.
  rewrite SettlementFacts.resolve_bets_state. simpl. auto.
Qed.

Lemma complete_commitment_raised (db db' : DB) (cid : Z)
    (data : CommitmentCompleteRequest) (u now : Z) (coaching : option string)
    (e : HTTPException) :
  complete_commitment db cid data u now coaching = Raised e db' ->
  db' = db
  /\ ((find_owned_commitment db cid u = None
       /\ e = mkHTTPException 404 "Commitment not found")
      \/ (exists commitment,
            find_owned_commitment db cid u = Some commitment
            /\ c_status commitment <> "pending"
            /\ e = mkHTTPException 400 "Commitment is already resolved")).
Proof.
  unfold complete_commitment.
  destruct (find_owned_commitment db cid u) as [commitment|].
  - destruct (c_status commitment =? "pending")%string eqn:E; simpl.
    + rewrite SettlementFacts.resolve_bets_state. discriminate.
    + intros H. injection H as <- <-. split; [reflexivity|]. right.
      exists commitment. apply String.eqb_neq in E. auto.
  - intros H. injection H as <- <-. auto.
Qed.

Lemma delete_bet_returned (db db' : DB) (bid u : Z) :
  delete_bet db bid u = Returned tt db' ->
  exists bet,
    find_bet db bid = Some bet
    /\ b_bettor_id bet = u
    /\ b_resolved bet = false
    /\ (forall c, find_commitment db (b_commitment_id bet) = Some c ->
                  c_status c = "pending")
    /\ db' = mkDB (users db) (credit_rows (balances db) u (b_amount bet))
                  (commitments db)
                  (filter (fun b => negb (b_id b =? b_id bet)) (bets db))
                  (context_messages db) (coaching_messages db).
Proof.
  unfold delete_bet.
  destruct (find_bet db bid) as [bet|]; [|discriminate].
  destruct (b_bettor_id bet =? u) eqn:Eu; simpl; [|discriminate].
  destruct (b_resolved bet) eqn:Er; [discriminate|].
  destruct (find_commitment db (b_commitment_id bet)) as [c|] eqn:Ec.
  - destruct (c_status c =? "pending")%string eqn:Es; simpl; [|discriminate].
    intros H. injection H as <-. exists bet. apply Z.eqb_eq in Eu.
    apply String.eqb_eq in Es. repeat split; auto. congruence.
  - cbv iota. intros H. injection H as <-. exists bet. apply Z.eqb_eq in Eu.
    repeat split; auto. intros c Hc. congruence.
Qed.

Lemma delete_bet_raised (db db' : DB) (bid u : Z) (e : HTTPException) :
  delete_bet db bid u = Raised e db' -> db' = db.
Proof.
  unfold delete_bet.
  destruct (find_bet db bid) as [bet|]; [|now intros [= _ <-]].
  destruct (negb (b_bettor_id bet =? u)); [now intros [= _ <-]|].
  destruct (b_resolved bet); [now intros [= _ <-]|].
  destruct (match find_commitment db (b_commitment_id bet) with
            | Some c => negb (c_status c =? "pending")%string
            | None => false
            end); [now intros [= _ <-] | discriminate].
Qed.

(** The balances that [create_bet] reads: those of the state, with the row
    of the bettor created when it is missing. *)
Lemma create_bet_returned (db db' : DB) (cid : Z) (data : BetCreate)
    (u now : Z) (bet : Bet) :
  create_bet db cid data u now = Returned bet db' ->
  exists commitment rows,
    find_commitment db cid = Some commitment
    /\ c_owner_id commitment <> u
    /\ c_status commitment = "pending"
    /\ now < c_deadline commitment
    /\ (direction data = "will_complete" \/ direction data = "will_fail")
    /\ 0 < amount data
    /\ rows = (if has_account (balances db) u then balances db
               else balances db ++ [mkUserBalance u 500])
    /\ bet = mkBet (next_id (map b_id (bets db))) cid u (direction data)
                   (amount data) false None
    /\ db' = mkDB (users db) (credit_rows rows u (- amount data))
                  (commitments db) (bets db ++ [bet])
                  (context_messages db) (coaching_messages db)
    /\ (forall r, find (fun r => ub_user_id r =? u) rows = Some r ->
                  amount data <= ub_balance r).
Proof.
  unfold create_bet.
  destruct (find_commitment db cid) as [commitment|]; [|discriminate].
  destruct (c_owner_id commitment =? u) eqn:Eo; [discriminate|].
  destruct (c_status commitment =? "pending")%string eqn:Es; simpl;
    [|discriminate].
  destruct (c_deadline commitment <=? now) eqn:Ed; [discriminate|].
  destruct ((direction data =? "will_complete")%string
            || (direction data =? "will_fail")%string) eqn:Edir; simpl;
    [|discriminate].
  destruct (amount data <=? 0) eqn:Ea; [discriminate|].
  apply Z.eqb_neq in Eo. apply String.eqb_eq in Es.
  apply Z.leb_gt in Ed. apply Z.leb_gt in Ea.
  assert (Hdir : direction data = "will_complete"
                 \/ direction data = "will_fail").
  { apply orb_true_iff in Edir.
    destruct Edir as [H|H]; apply String.eqb_eq in H; auto. }
  unfold find_balance.
  destruct (find (fun r => ub_user_id r =? u) (balances db)) as [balance|]
    eqn:Ef.
  - assert (Ha : has_account (balances db) u = true)
      by (apply has_account_found; eauto).
    destruct (ub_balance balance <? amount data) eqn:Eb; [discriminate|].
    intros H. injection H as <- <-.
    exists commitment, (balances db). rewrite Ha.
    apply Z.ltb_ge in Eb.
    repeat split; auto. intros r Hr. rewrite Ef in Hr. now injection Hr as <-.
  - assert (Ha : has_account (balances db) u = false)
      by now apply has_account_find.
    simpl. destruct (500 <? amount data) eqn:Eb; [discriminate|].
    intros H. injection H as <- <-.
    exists commitment, (balances db ++ [mkUserBalance u 500]). rewrite Ha.
    apply Z.ltb_ge in Eb.
    repeat split; auto. intros r Hr.
    rewrite find_app_missing in Hr by exact Ef. simpl in Hr.
    rewrite Z.eqb_refl in Hr. now injection Hr as <-.
Qed.

Lemma create_bet_raised (db db' : DB) (cid : Z) (data : BetCreate)
    (u now : Z) (e : HTTPException) :
  create_bet db cid data u now = Raised e db' ->
  db' = db
  \/ (has_account (balances db) u = false
      /\ db' = set_balances db (balances db ++ [mkUserBalance u 500])).
Proof.
  unfold create_bet.
  destruct (find_commitment db cid) as [commitment|]; [|intros [= _ <-]; auto].
  destruct (c_owner_id commitment =? u); [intros [= _ <-]; auto|].
  destruct (negb (c_status commitment =? "pending")%string);
    [intros [= _ <-]; auto|].
  destruct (c_deadline commitment <=? now); [intros [= _ <-]; auto|].
  destruct (negb ((direction data =? "will_complete")%string
                  || (direction data =? "will_fail")%string));
    [intros [= _ <-]; auto|].
  destruct (amount data <=? 0); [intros [= _ <-]; auto|].
  unfold find_balance.
  destruct (find (fun r => ub_user_id r =? u) (balances db)) as [balance|]
    eqn:Ef.
  - destruct (ub_balance balance <? amount data); [|discriminate].
    intros [= _ <-]; auto.
  - destruct (ub_balance (mkUserBalance u 500) <? amount data);
      [|discriminate].
    intros [= _ <-]. right. split; [now apply has_account_find | reflexivity].
Qed.

End EndpointFacts.

(** ** The states that histories lead to *)

Module LedgerFacts.

Import Lifecycle Wagers Ledger EndpointFacts.

Lemma NoDup_map_filter {A B : Type} (f : A -> B) (p : A -> bool)
    (xs : list A) :
  NoDup (map f xs) -> NoDup (map f (filter p xs)).
Proof.
  induction xs as [|x xs IH]; simpl; intros H; [constructor|].
  inversion H as [|? ? Hnotin Hrest]; subst.
  destruct (p x); simpl; [|now apply IH].
  constructor; [|now apply IH].
  intros Hin. apply Hnotin. apply in_map_iff in Hin.
  destruct Hin as [y [Hy Hin]]. apply filter_In in Hin.
  apply in_map_iff. exists y. tauto.
Qed.

Lemma NoDup_snoc (ids : list Z) (i : Z) :
  NoDup ids -> ~ In i ids -> NoDup (ids ++ [i]).
Proof.
  intros Hnd Hi. apply NoDup_app; [exact Hnd | repeat constructor; auto |].
  intros x Hx [<- | []]. contradiction.
Qed.

(** A commitment is found by its id exactly when the id is in the
    registry. *)
Lemma find_commitment_in (db : DB) (cid : Z) :
  In cid (map c_id (commitments db)) <-> find_commitment db cid <> None.
Proof.
  unfold find_commitment. induction (commitments db) as [|c cs IH]; simpl.
  - split; [tauto | congruence].
  - destruct (c_id c =? cid) eqn:E.
    + apply Z.eqb_eq in E. split; [discriminate | auto].
    + apply Z.eqb_neq in E. rewrite <- IH. split; [intros [H|H] | ]; tauto.
Qed.

Lemma find_owned_id (db : DB) (cid u : Z) (c : Commitment) :
  find_owned_commitment db cid u = Some c -> c_id c = cid /\ c_owner_id c = u.
Proof.
  intros H. apply find_some in H. destruct H as [_ H].
  apply andb_true_iff in H. destruct H as [H1 H2].
  apply Z.eqb_eq in H1. apply Z.eqb_eq in H2. auto.
Qed.

Lemma update_owned_ids (rows : list Commitment) (cid u : Z)
    (updated : Commitment) :
  c_id updated = cid ->
  map c_id (update_owned rows cid u updated) = map c_id rows.
Proof.
  intros Hid. induction rows as [|c rows IH]; simpl; [reflexivity|].
  destruct ((c_id c =? cid) && (c_owner_id c =? u)) eqn:E; simpl.
  - apply andb_true_iff in E. destruct E as [E _]. apply Z.eqb_eq in E.
    congruence.
  - now rewrite IH.
Qed.

Lemma settle_rows_ids (c : Commitment) (o : bool) (t p : Z)
    (rows : list Bet) :
  map b_id (map (Settlement.settle_row c o t p) rows) = map b_id rows.
Proof.
  rewrite map_map. apply map_ext. intros b.
  apply SettlementFacts.settle_row_id.
Qed.

Lemma linked_settle_rows (B : list UserBalance) (C : list Z) (c : Commitment)
    (o : bool) (t p : Z) (rows : list Bet) :
  Forall (linked B C) rows ->
  Forall (linked B C) (map (Settlement.settle_row c o t p) rows).
Proof.
  intros H. apply Forall_map. revert H. apply Forall_impl.
  intros b. unfold linked.
  now rewrite SettlementFacts.settle_row_bettor,
    SettlementFacts.settle_row_commitment.
Qed.

(** Links survive when accounts and commitments only grow. *)
Lemma linked_grow (B B' : list UserBalance) (C C' : list Z)
    (rows : list Bet) :
  (forall u, has_account B u = true -> has_account B' u = true) ->
  incl C C' ->
  Forall (linked B C) rows -> Forall (linked B' C') rows.
Proof.
  intros HB HC. apply Forall_impl. intros b [H1 H2].
  split; [now apply HB | now apply HC].
Qed.

Lemma has_account_grow (B more : list UserBalance) (u : Z) :
  has_account B u = true -> has_account (B ++ more) u = true.
Proof. intros H. now rewrite has_account_app, H. Qed.

Lemma has_account_snoc (B : list UserBalance) (u v : Z) :
  has_account (B ++ [mkUserBalance u v]) u = true.
Proof.
  rewrite has_account_app. unfold has_account at 2. simpl.
  rewrite Z.eqb_refl. apply orb_true_iff. auto.
Qed.

Lemma sound_empty : sound empty_db.
Proof. repeat split; simpl; constructor. Qed.

Lemma sound_register (db : DB) (email : string) :
  sound db -> sound (final_db (Accounts.register db email)).
Proof.
  intros (Hb & Hc & Hl). unfold Accounts.register.
  destruct (find _ (users db)); simpl; [now repeat split|].
  repeat split; auto. simpl. revert Hl.
  apply linked_grow; [intros u; apply has_account_grow | apply incl_refl].
Qed.

Lemma sound_get_balance (db : DB) (u : Z) :
  sound db -> sound (final_db (Accounts.get_balance db u)).
Proof.
  intros (Hb & Hc & Hl). unfold Accounts.get_balance.
  destruct (find_balance db u); simpl; [now repeat split|].
  repeat split; auto. simpl. revert Hl.
  apply linked_grow; [intros v; apply has_account_grow | apply incl_refl].
Qed.

Lemma sound_create_commitment (db : DB) (deadline u : Z) :
  sound db -> sound (final_db (create_commitment db deadline u)).
Proof.
  intros (Hb & Hc & Hl). unfold create_commitment. simpl.
  repeat split; auto; simpl; rewrite map_app; simpl.
  - apply NoDup_snoc; [exact Hc | apply next_id_fresh].
  - revert Hl. apply linked_grow; [auto | apply incl_appl, incl_refl].
Qed.

Lemma sound_delete_commitment (db : DB) (cid u : Z) :
  sound db -> sound (final_db (delete_commitment db cid u)).
Proof.
  intros (Hb & Hc & Hl). unfold delete_commitment.
  destruct (find_owned_commitment db cid u) as [c|] eqn:Ef; simpl;
    [|now repeat split].
  destruct (Z.of_nat (List.length
              (filter (fun b => b_commitment_id b =? cid) (bets db))) >? 0)
    eqn:En; simpl; [now repeat split|].
  apply find_owned_id in Ef. destruct Ef as [Hid _].
  assert (Hnone : filter (fun b => b_commitment_id b =? cid) (bets db) = []).
  { rewrite Z.gtb_ltb in En. apply Z.ltb_ge in En.
    destruct (filter _ (bets db)); [reflexivity|].
    cbn [List.length] in En. lia. }
  repeat split; auto; simpl.
  - now apply NoDup_map_filter.
  - apply Forall_forall. intros b Hin.
    rewrite Forall_forall in Hl. destruct (Hl b Hin) as [H1 H2].
    split; [exact H1|].
    apply in_map_iff in H2. destruct H2 as [c0 [Hc0 Hin0]].
    apply in_map_iff. exists c0. split; [exact Hc0|].
    apply filter_In. split; [exact Hin0|].
    apply negb_true_iff. apply Z.eqb_neq. intros Heq.
    assert (Hb' : In b (filter (fun b => b_commitment_id b =? cid) (bets db))).
    { apply filter_In. split; [exact Hin|]. apply Z.eqb_eq. congruence. }
    rewrite Hnone in Hb'. exact Hb'.
Qed.

Lemma add_context_tables (db : DB) (cid : Z) (role content : string) :
  balances (add_context db cid role content) = balances db
  /\ bets (add_context db cid role content) = bets db
  /\ commitments (add_context db cid role content) = commitments db.
Proof. now repeat split. Qed.

Lemma add_contexts_tables (db : DB) (cid : Z) (role : string)
    (contents : list string) :
  let db' := fold_left (fun d content => add_context d cid role content)
                       contents db in
  balances db' = balances db /\ bets db' = bets db
  /\ commitments db' = commitments db.
Proof.
  cbv zeta. revert db.
  induction contents as [|content contents IH]; intros db; cbn [fold_left];
    [now repeat split|].
  destruct (IH (add_context db cid role content)) as (-> & -> & ->).
  apply add_context_tables.
Qed.

(** The endpoints of the Q&A context leave balances, wagers and
    commitments as they are. *)
Lemma generate_ai_questions_tables (db : DB) (cid : Z)
    (questions : list string) (u : Z) :
  let db' := final_db (generate_ai_questions db cid questions u) in
  balances db' = balances db /\ bets db' = bets db
  /\ commitments db' = commitments db.
Proof.
  cbv zeta. unfold generate_ai_questions.
  destruct (find_owned_commitment db cid u); cbn [final_db];
    [apply add_contexts_tables | now repeat split].
Qed.

Lemma submit_ai_answer_tables (db : DB) (cid : Z) (answer : string) (u : Z) :
  let db' := final_db (submit_ai_answer db cid answer u) in
  balances db' = balances db /\ bets db' = bets db
  /\ commitments db' = commitments db.
Proof.
  cbv zeta. unfold submit_ai_answer.
  destruct (find_owned_commitment db cid u); now repeat split.
Qed.

Lemma sound_same_tables (db db' : DB) :
  balances db' = balances db /\ bets db' = bets db
  /\ commitments db' = commitments db ->
  sound db -> sound db'.
Proof. unfold sound. now intros (-> & -> & ->). Qed.

Lemma sound_store_coaching (db : DB) (c : Commitment)
    (coaching : option string) :
  sound db -> sound (store_coaching db c coaching).
Proof. now destruct coaching. Qed.

Lemma sound_settled (db : DB) (c : Commitment) :
  sound db -> sound (Settlement.settled db c).
Proof.
  intros (Hb & Hc & Hl). unfold sound.
  rewrite SettlementFacts.settled_bets, SettlementFacts.settled_commitments.
  rewrite settle_rows_ids. repeat split; auto.
  apply linked_settle_rows. revert Hl.
  apply linked_grow; [|apply incl_refl].
  intros u. now rewrite SettlementFacts.settled_accounts.
Qed.

Lemma sound_complete_commitment (db : DB) (cid : Z)
    (data : CommitmentCompleteRequest) (u now : Z) (coaching : option string) :
  sound db -> sound (final_db (complete_commitment db cid data u now coaching)).
Proof.
  intros Hs.
  destruct (complete_commitment db cid data u now coaching) as [c' db'|e db']
    eqn:E; simpl.
  - apply complete_commitment_returned in E.
    destruct E as (c & Hf & _ & Hc' & ->).
    apply sound_store_coaching, sound_settled.
    destruct Hs as (Hb & Hc & Hl).
    assert (Hids : map c_id (update_owned (commitments db) cid u c')
                   = map c_id (commitments db)).
    { apply update_owned_ids. subst c'. simpl. now apply find_owned_id in Hf. }
    unfold sound. simpl. rewrite Hids. auto.
  - apply complete_commitment_raised in E. now destruct E as [-> _].
Qed.

Lemma sound_create_bet (db : DB) (cid : Z) (data : BetCreate) (u now : Z) :
  sound db -> sound (final_db (create_bet db cid data u now)).
Proof.
  intros (Hb & Hc & Hl).
  destruct (create_bet db cid data u now) as [bet db'|e db'] eqn:E; simpl.
  - apply create_bet_returned in E.
    destruct E as (c & rows & Hf & _ & _ & _ & _ & _ & Hrows & Hbet & -> & _).
    assert (Hgrow : forall v, has_account (balances db) v = true ->
                              has_account rows v = true).
    { intros v Hv. subst rows.
      destruct (has_account (balances db) u); [exact Hv|].
      now apply has_account_grow. }
    assert (Hu : has_account rows u = true).
    { subst rows. destruct (has_account (balances db) u) eqn:Ea; [exact Ea|].
      apply has_account_snoc. }
    repeat split; auto; simpl.
    + rewrite map_app. simpl. apply NoDup_snoc; [exact Hb|].
      subst bet. simpl. apply next_id_fresh.
    + apply Forall_app. split.
      * revert Hl. apply linked_grow; [|apply incl_refl].
        intros v Hv. rewrite has_account_credit. now apply Hgrow.
      * constructor; [|constructor]. subst bet. split; simpl.
        -- now rewrite has_account_credit.
        -- apply find_commitment_in. congruence.
  - apply create_bet_raised in E.
    destruct E as [-> | [_ ->]]; [now repeat split|].
    repeat split; auto. simpl. revert Hl.
    apply linked_grow; [intros v; apply has_account_grow | apply incl_refl].
Qed.

Lemma sound_delete_bet (db : DB) (bid u : Z) :
  sound db -> sound (final_db (delete_bet db bid u)).
Proof.
  intros (Hb & Hc & Hl).
  destruct (delete_bet db bid u) as [[] db'|e db'] eqn:E; simpl.
  - apply delete_bet_returned in E.
    destruct E as (bet & _ & _ & _ & _ & ->).
    repeat split; auto; simpl.
    + now apply NoDup_map_filter.
    + apply Forall_forall. intros b Hin. apply filter_In in Hin.
      rewrite Forall_forall in Hl. destruct (Hl b (proj1 Hin)) as [H1 H2].
      split; [now rewrite has_account_credit | exact H2].
  - apply delete_bet_raised in E. subst db'. now repeat split.
Qed.

(** Every call keeps the state sound ... *)
Lemma sound_exec (db : DB) (c : call) : sound db -> sound (exec db c).
Proof.
  destruct c; simpl.
  - apply sound_register.
  - apply sound_get_balance.
  - apply sound_create_commitment.
  - apply sound_delete_commitment.
  - apply sound_same_tables, generate_ai_questions_tables.
  - apply sound_same_tables, submit_ai_answer_tables.
  - apply sound_complete_commitment.
  - apply sound_create_bet.
  - apply sound_delete_bet.
Qed.

(** ... so every state that a history leads to is sound. *)
Lemma sound_run (history : list call) (db : DB) :
  sound db -> sound (run db history).
Proof.
  unfold run. revert db.
  induction history as [|c history IH]; intros db H; simpl; [exact H|].
  apply IH, sound_exec, H.
Qed.

(** *** Conservation, call by call *)

(** A settlement takes the stakes of the wagers it settles out of what is
    staked. *)
Lemma staked_settle_rows (c : Commitment) (o : bool) (t p : Z)
    (rows : list Bet) :
  Py.sum b_amount
    (filter (fun b => negb (b_resolved b))
            (map (Settlement.settle_row c o t p) rows))
  + Py.sum b_amount (filter (Settlement.selected c) rows)
  = Py.sum b_amount (filter (fun b => negb (b_resolved b)) rows).
Proof.
  induction rows as [|b rows IH]; [reflexivity|].
  cbn [map filter]. unfold Settlement.settle_row at 1 2.
  destruct (Settlement.selected c b) eqn:Es.
  - assert (Er : b_resolved b = false).
    { unfold Settlement.selected in Es. apply andb_true_iff in Es.
      destruct Es as [_ H]. now apply negb_true_iff in H. }
    cbn [filter b_resolved negb]. rewrite Er. cbn [negb].
    rewrite !sum_cons. lia.
  - destruct (negb (b_resolved b)); rewrite ?sum_cons; lia.
Qed.

Lemma staked_settled (db : DB) (c : Commitment) :
  staked (Settlement.settled db c)
  + Py.sum b_amount (Settlement.unresolved_bets db c)
  = staked db.
Proof.
  unfold staked. rewrite SettlementFacts.settled_bets.
  apply staked_settle_rows.
Qed.

(** In a sound state every winner has a balance row. *)
Lemma winners_have_accounts (db : DB) (c : Commitment) (C : list Z) :
  Forall (linked (balances db) C) (bets db) ->
  filter (fun b => has_account (balances db) (b_bettor_id b))
         (Settlement.winners db c)
  = Settlement.winners db c.
Proof.
  intros Hl. apply forallb_filter_id. apply forallb_forall. intros b Hb.
  unfold Settlement.winners, Settlement.unresolved_bets in Hb.
  apply filter_In in Hb. destruct Hb as [Hb _].
  apply filter_In in Hb. destruct Hb as [Hb _].
  rewrite Forall_forall in Hl. now destruct (Hl b Hb).
Qed.

(** A settlement moves the stakes of the winners and the pot, less the
    remainder, from what is staked to the balances. *)
Lemma settled_worth (db : DB) (c : Commitment) (C : list Z) :
  Forall (linked (balances db) C) (bets db) ->
  total_balances (Settlement.settled db c) + staked (Settlement.settled db c)
  + Settlement.remainder db c
  = total_balances db + staked db.
Proof.
  intros Hl. unfold total_balances.
  rewrite SettlementFacts.settled_total.
  rewrite (winners_have_accounts db c C Hl).
  rewrite <- (staked_settled db c).
  rewrite SettlementFacts.stakes_split.
  unfold Settlement.remainder, Settlement.remainder_of.
  set (t := Settlement.total_winner_stakes db c).
  set (p := Settlement.pot db c).
  assert (H : Py.sum (Settlement.winner_payout t p) (Settlement.winners db c)
              = Py.sum (fun b => Settlement.winner_payout t p b - b_amount b)
                       (Settlement.winners db c) + t).
  { unfold t at 3. unfold Settlement.total_winner_stakes.
    rewrite <- sum_plus. apply sum_ext. intros b _. lia. }
  rewrite H. lia.
Qed.

Lemma settled_rows_count (db : DB) (c : Commitment) :
  List.length (balances (Settlement.settled db c)) = List.length (balances db).
Proof.
  rewrite <- (length_map ub_user_id), SettlementFacts.settled_balances,
    SettlementFacts.fold_credit_accounts.
  apply length_map.
Qed.

(** A cancellation takes the stake of the wager out of what is staked. *)
Lemma staked_delete (rows : list Bet) (bet : Bet) :
  NoDup (map b_id rows) -> In bet rows -> b_resolved bet = false ->
  Py.sum b_amount
    (filter (fun b => negb (b_resolved b))
            (filter (fun b => negb (b_id b =? b_id bet)) rows))
  + b_amount bet
  = Py.sum b_amount (filter (fun b => negb (b_resolved b)) rows).
Proof.
  intros Hnd Hin Hres. induction rows as [|b rows IH]; [contradiction|].
  cbn [map] in Hnd. inversion Hnd as [|? ? Hnotin Hrest]; subst.
  cbn [filter]. destruct Hin as [-> | Hin].
  - rewrite Z.eqb_refl. cbn [negb]. rewrite Hres. cbn [negb].
    rewrite sum_cons.
    assert (Hkeep : filter (fun b => negb (b_id b =? b_id bet)) rows = rows).
    { apply forallb_filter_id. apply forallb_forall. intros x Hx.
      apply negb_true_iff. apply Z.eqb_neq. intros Heq.
      apply Hnotin. apply in_map_iff. now exists x. }
    rewrite Hkeep. lia.
  - destruct (b_id b =? b_id bet) eqn:E.
    + apply Z.eqb_eq in E. exfalso. apply Hnotin. rewrite E.
      now apply in_map.
    + cbn [negb filter]. destruct (negb (b_resolved b));
        rewrite ?sum_cons; rewrite <- (IH Hrest Hin); lia.
Qed.

Lemma total_snoc (rows : list UserBalance) (u v : Z) :
  Py.sum ub_balance (rows ++ [mkUserBalance u v]) = Py.sum ub_balance rows + v.
Proof. rewrite sum_app, sum_cons, sum_nil. simpl. lia. Qed.

Lemma count_snoc {A : Type} (rows : list A) (r : A) :
  Z.of_nat (List.length (rows ++ [r])) = Z.of_nat (List.length rows) + 1.
Proof. rewrite length_app. simpl. lia. Qed.

Lemma staked_snoc (rows : list Bet) (bet : Bet) :
  b_resolved bet = false ->
  Py.sum b_amount (filter (fun b => negb (b_resolved b)) (rows ++ [bet]))
  = Py.sum b_amount (filter (fun b => negb (b_resolved b)) rows)
    + b_amount bet.
Proof.
  intros H. rewrite filter_app, sum_app. cbn [filter]. rewrite H. cbn [negb].
  rewrite sum_cons, sum_nil. lia.
Qed.

(** Every call conserves the currency: what the balances and the stakes
    hold after it, and the remainder it left, are what they held before it
    and what it granted. *)
Lemma conserved_exec (db : DB) (c : call) :
  sound db ->
  total_balances (exec db c) + staked (exec db c) + remainder_left db c
  = total_balances db + staked db + granted db c.
Proof.
  intros Hs. unfold granted. destruct c as
    [email | u | deadline u | cid u | cid questions u | cid answer u
     | cid data u now coaching | cid data u now | bid u];
    cbn [exec remainder_left].
  - unfold Accounts.register.
    destruct (find _ (users db)); cbn [final_db]; [lia|].
    unfold total_balances, staked. cbn [balances bets].
    rewrite total_snoc, count_snoc. lia.
  - unfold Accounts.get_balance.
    destruct (find_balance db u); cbn [final_db]; [lia|].
    unfold total_balances, staked, set_balances. cbn [balances bets].
    rewrite total_snoc, count_snoc. lia.
  - unfold create_commitment, total_balances, staked, set_commitments.
    cbn [final_db balances bets]. lia.
  - unfold delete_commitment.
    destruct (find_owned_commitment db cid u); cbn [final_db]; [|lia].
    destruct (_ >? 0); cbn [final_db]; [lia|].
    unfold total_balances, staked. cbn [balances bets]. lia.
  - destruct (generate_ai_questions_tables db cid questions u)
      as (Hb & Hw & _).
    unfold total_balances, staked. rewrite Hb, Hw. lia.
  - destruct (submit_ai_answer_tables db cid answer u) as (Hb & Hw & _).
    unfold total_balances, staked. rewrite Hb, Hw. lia.
  - destruct (complete_commitment db cid data u now coaching) as [c' db'|e db']
      eqn:E; cbn [final_db].
    + apply complete_commitment_returned in E.
      destruct E as (c & _ & _ & _ & ->).
      set (db1 := set_commitments db (update_owned (commitments db) cid u c')).
      assert (Hl : Forall (linked (balances db1) (map c_id (commitments db)))
                          (bets db1)) by apply Hs.
      pose proof (settled_worth db1 c' _ Hl) as Hw.
      pose proof (settled_rows_count db1 c') as Hn.
      change (Settlement.remainder db1 c') with (Settlement.remainder db c')
        in Hw.
      change (total_balances db1) with (total_balances db) in Hw.
      change (staked db1) with (staked db) in Hw.
      change (balances db1) with (balances db) in Hn.
      assert (Hsame : forall d, total_balances (store_coaching d c' coaching)
                                = total_balances d
                                /\ staked (store_coaching d c' coaching)
                                   = staked d
                                /\ balances (store_coaching d c' coaching)
                                   = balances d)
        by (intros d; now destruct coaching).
      destruct (Hsame (Settlement.settled db1 c')) as (-> & -> & ->).
      rewrite Hn. lia.
    + apply complete_commitment_raised in E. destruct E as [-> _]. lia.
  - destruct (create_bet db cid data u now) as [bet db'|e db'] eqn:E;
      cbn [final_db].
    + apply create_bet_returned in E.
      destruct E as (c & rows & _ & _ & _ & _ & _ & _ & Hrows & Hbet & -> & _).
      unfold total_balances, staked. cbn [balances bets].
      rewrite staked_snoc by (subst bet; reflexivity).
      rewrite credit_rows_length.
      assert (Hu : has_account rows u = true).
      { subst rows. destruct (has_account (balances db) u) eqn:Ea; [exact Ea|].
        apply has_account_snoc. }
      rewrite credit_rows_total by exact Hu.
      replace (b_amount bet) with (amount data) by (subst bet; reflexivity).
      subst rows. destruct (has_account (balances db) u); [lia|].
      rewrite total_snoc, count_snoc. lia.
    + apply create_bet_raised in E. destruct E as [-> | [_ ->]]; [lia|].
      unfold total_balances, staked, set_balances. cbn [balances bets].
      rewrite total_snoc, count_snoc. lia.
  - destruct (delete_bet db bid u) as [[] db'|e db'] eqn:E; cbn [final_db].
    + apply delete_bet_returned in E.
      destruct E as (bet & Hf & Hu & Hres & _ & ->).
      unfold total_balances, staked. cbn [balances bets].
      rewrite credit_rows_length.
      apply find_some in Hf. destruct Hf as [Hin _].
      destruct Hs as (Hnd & _ & Hl).
      rewrite Forall_forall in Hl. destruct (Hl bet Hin) as [Ha _].
      rewrite Hu in Ha. rewrite credit_rows_total by exact Ha.
      rewrite <- (staked_delete (bets db) bet Hnd Hin Hres). lia.
    + apply delete_bet_raised in E. subst db'. lia.
Qed.

End LedgerFacts.

(** ** Conservation of the currency *)

Section Conservation.

Import Ledger LedgerFacts.

Lemma balanced_post (b : books) (c : call) :
  sound (state b) -> balanced b -> balanced (post b c).
Proof.
  unfold balanced, post. cbn [state grants remainders]. intros Hs Hb.
  pose proof (conserved_exec (state b) c Hs). lia.
Qed.

Lemma balanced_fold (history : list call) (b : books) :
  sound (state b) -> balanced b ->
  sound (state (fold_left post history b))
  /\ balanced (fold_left post history b).
Proof.
  revert b. induction history as [|c history IH]; intros b Hs Hb;
    cbn [fold_left]; [auto|].
  apply IH; [apply sound_exec, Hs | now apply balanced_post].
Qed.

(** The state of the books is the state that the history leads to. *)
Lemma books_state (history : list call) (b : books) :
  state (fold_left post history b) = run (state b) history.
Proof.
  unfold run. revert b.
  induction history as [|c history IH]; intros b; cbn [fold_left];
    [reflexivity|].
  now rewrite IH.
Qed.

Lemma audit_state (history : list call) :
  state (audit history) = run empty_db history.
Proof. apply books_state. Qed.

End Conservation.

(** C2, as the code has it: along every history of calls from the empty
    store, the sum of all balances, plus the stakes of the wagers that are
    not resolved, plus the remainders that the settlements left (the pot
    less the shares credited), is the sum of the grants of 500 issued with
    the balance rows; and a settlement without a winner leaves its whole pot
    as remainder. *)
Theorem currency_conserved :
  (forall history : list Ledger.call,
      let b := Ledger.audit history in
      Ledger.total_balances (Ledger.state b) + Ledger.staked (Ledger.state b)
      + Ledger.remainders b
      = Ledger.grants b)
  /\ (forall (db : DB) (commitment : Commitment),
        Settlement.winners db commitment = [] ->
        Settlement.remainder db commitment
        = Py.sum b_amount (Settlement.unresolved_bets db commitment)).
Proof.
  split.
  - intros history b. subst b. unfold Ledger.audit.
    apply (balanced_fold history Ledger.opening).
    + apply LedgerFacts.sound_empty.
    + reflexivity.
  - intros db commitment Hw.
    rewrite SettlementFacts.stakes_split.
    unfold Settlement.remainder, Settlement.remainder_of,
      Settlement.total_winner_stakes.
    rewrite Hw, !sum_nil. lia.
Qed.

Lemma currency_conserved_witness :
  Settlement.remainder (Ledger.run empty_db Scenario.lone_bet)
                       Scenario.failed_commitment
  = 100.
Proof.
  rewrite (proj2 currency_conserved
             (Ledger.run empty_db Scenario.lone_bet)
             Scenario.failed_commitment);
    reflexivity.
Defined.

(** C2, as it is stated, fails on the settlement of a lone losing wager of
    100: the balances hold 1900 of the 2000 granted, nothing is staked, and
    the remainder of that settlement is 100, with no winner.  Balances plus
    stakes minus remainders is 1800, not the 2000 granted, and the
    remainder is not at most the number of winners less one. *)
Lemma conservation_as_stated_fails :
  let before := Ledger.audit Scenario.lone_bet in
  let after := Ledger.post before Scenario.resolve_failed in
  ~ (Ledger.total_balances (Ledger.state after)
     + Ledger.staked (Ledger.state after) - Ledger.remainders after
     = Ledger.grants after)
  /\ ~ (Ledger.remainder_left (Ledger.state before) Scenario.resolve_failed
        <= Z.of_nat (List.length
                       (Settlement.winners (Ledger.state before)
                                           Scenario.failed_commitment)) - 1).
Proof.
  cbv zeta. split; intros H; vm_compute in H.
  - discriminate H.
  - apply H. reflexivity.
Qed.

(** The pot of 49 vanishes when 49 winners staked 1 each: every share is
    [int(0.9999999999999999)]. *)
Lemma equal_stakes_lose_the_pot :
  Settlement.remainder_of
    (repeat (mkBet 0 1 2 "will_complete" 1 false None) 49) 49 49 = 49.
Proof. vm_compute. reflexivity. Qed.

(** ** No second settlement *)

Section SecondSettlement.

Import Lifecycle Ledger LedgerFacts EndpointFacts.

Lemma update_owned_in (rows : list Commitment) (cid u : Z)
    (c c' : Commitment) :
  find (fun r => (c_id r =? cid) && (c_owner_id r =? u)) rows = Some c ->
  In c' (update_owned rows cid u c').
Proof.
  induction rows as [|r rows IH]; simpl; [discriminate|].
  destruct ((c_id r =? cid) && (c_owner_id r =? u)); simpl; auto.
Qed.

(** Under a key, two rows with the same id are one row. *)
Lemma same_id_same_row (rows : list Commitment) (a b : Commitment) :
  NoDup (map c_id rows) -> In a rows -> In b rows -> c_id a = c_id b -> a = b.
Proof.
  induction rows as [|r rows IH]; simpl; intros Hnd Ha Hb Hid; [contradiction|].
  inversion Hnd as [|? ? Hnotin Hrest]; subst.
  destruct Ha as [-> | Ha]; destruct Hb as [-> | Hb]; auto.
  - exfalso. apply Hnotin. rewrite Hid. now apply in_map.
  - exfalso. apply Hnotin. rewrite <- Hid. now apply in_map.
Qed.

Lemma store_coaching_commitments (db : DB) (c : Commitment)
    (coaching : option string) :
  commitments (store_coaching db c coaching) = commitments db.
Proof. now destruct coaching. Qed.

Lemma store_coaching_bets (db : DB) (c : Commitment)
    (coaching : option string) :
  bets (store_coaching db c coaching) = bets db.
Proof. now destruct coaching. Qed.

(** With nothing to settle, [resolve_bets] returns at once. *)
Lemma resolve_bets_nothing (db : DB) (c : Commitment) :
  Settlement.unresolved_bets db c = [] ->
  Settlement.resolve_bets db c = Returned tt db.
Proof. unfold Settlement.resolve_bets. now intros ->. Qed.

Lemma resolved_not_pending (c : Commitment) (data : CommitmentCompleteRequest)
    (now : Z) :
  c_status (resolve_record c data now) <> "pending".
Proof. simpl. destruct (completed data); discriminate. Qed.

End SecondSettlement.

(** C3, as the code has it: once a resolution of a commitment has gone
    through, in a state that a history of calls led to, every further call
    of the resolution of that commitment, by any user, raises 404 or 400 and
    leaves the state as it is; a further direct call of the settlement
    engine is not rejected: it finds no unresolved wager, returns, and
    leaves the state, balances and payouts, as it is. *)
Theorem second_settlement_changes_nothing
    (history : list Ledger.call) (cid : Z)
    (data : Lifecycle.CommitmentCompleteRequest) (u now : Z)
    (coaching : option string) (c' : Commitment) (db' : DB) :
  Lifecycle.complete_commitment (Ledger.run empty_db history) cid data u now
    coaching = Returned c' db' ->
  (forall (data2 : Lifecycle.CommitmentCompleteRequest) (u2 now2 : Z)
          (coaching2 : option string),
      exists e,
        Lifecycle.complete_commitment db' cid data2 u2 now2 coaching2
        = Raised e db'
        /\ (status_code e = 404 \/ status_code e = 400))
  /\ Settlement.resolve_bets db' c' = Returned tt db'.
Proof.
  intros Hfirst.
  pose proof (LedgerFacts.sound_complete_commitment _ cid data u now coaching
                (LedgerFacts.sound_run history empty_db
                   LedgerFacts.sound_empty)) as Hs.
  rewrite Hfirst in Hs. cbn [final_db] in Hs.
  pose proof Hfirst as Hinv.
  apply EndpointFacts.complete_commitment_returned in Hinv.
  destruct Hinv as (c & Hf & _ & Hc' & Hdb').
  set (db := Ledger.run empty_db history) in *.
  split.
  - intros data2 u2 now2 coaching2.
    destruct (Lifecycle.complete_commitment db' cid data2 u2 now2 coaching2)
      as [c2 db2|e db2] eqn:E.
    + exfalso.
      apply EndpointFacts.complete_commitment_returned in E.
      destruct E as (c0 & Hf0 & Hpending & _).
      assert (Hin0 : In c0 (commitments db'))
        by (apply find_some in Hf0; tauto).
      apply LedgerFacts.find_owned_id in Hf0. destruct Hf0 as [Hid0 _].
      assert (Hin' : In c' (commitments db')).
      { rewrite Hdb', store_coaching_commitments,
          SettlementFacts.settled_commitments. simpl.
        eapply update_owned_in. exact Hf. }
      assert (Hid' : c_id c' = cid).
      { rewrite Hc'. simpl. now apply LedgerFacts.find_owned_id in Hf. }
      assert (Heq : c0 = c').
      { apply (same_id_same_row (commitments db')); try assumption.
        - apply Hs.
        - congruence. }
      rewrite Heq, Hc' in Hpending.
      now apply resolved_not_pending in Hpending.
    + pose proof E as Hr.
      apply EndpointFacts.complete_commitment_raised in Hr.
      destruct Hr as [-> Hr]. exists e. split; [reflexivity|].
      destruct Hr as [[_ ->] | (c0 & _ & _ & ->)]; simpl; auto.
  - apply resolve_bets_nothing.
    rewrite Hdb'. unfold Settlement.unresolved_bets.
    rewrite store_coaching_bets.
    apply SettlementFacts.nothing_left_to_settle.
Qed.

Lemma second_settlement_changes_nothing_witness :
  let db' := Ledger.run empty_db
               (Scenario.example_bets ++ [Scenario.resolve_completed]) in
  (forall (data2 : Lifecycle.CommitmentCompleteRequest) (u2 now2 : Z)
          (coaching2 : option string),
      exists e,
        Lifecycle.complete_commitment db' 1 data2 u2 now2 coaching2
        = Raised e db'
        /\ (status_code e = 404 \/ status_code e = 400))
  /\ Settlement.resolve_bets db' Scenario.completed_commitment
     = Returned tt db'.
Proof.
  apply (second_settlement_changes_nothing Scenario.example_bets 1
           (Lifecycle.mkCompleteRequest true None None) 1 20 None).
  reflexivity.
Defined.

(** C3, as it is stated, fails on the engine: after the settlement of the
    example, a second call of [resolve_bets] on the commitment is not
    rejected; it returns, with the state unchanged. *)
Lemma second_settlement_is_not_rejected :
  let db' := Ledger.run empty_db
               (Scenario.example_bets ++ [Scenario.resolve_completed]) in
  ~ Spec.rejected (Settlement.resolve_bets db' Scenario.completed_commitment)
  /\ final_db (Settlement.resolve_bets db' Scenario.completed_commitment)
     = db'.
Proof.
  cbv zeta. split.
  - intros H. apply H. vm_compute. reflexivity.
  - vm_compute. reflexivity.
Qed.

(** ** The wager book *)

Section Placement.

Import Wagers.

Variable db : DB.
Variable commitment_id : Z.
Variable data : BetCreate.
Variable current_user : Z.
Variable now : Z.

Local Abbreviation placed :=
  (create_bet db commitment_id data current_user now).


Variable commitment : Commitment.
Hypothesis found : find_commitment db commitment_id = Some commitment.


Hypothesis not_owner : c_owner_id commitment <> current_user.


Hypothesis pending : c_status commitment = "pending".


Hypothesis in_time : now < c_deadline commitment.


Hypothesis good_direction :
  direction data = "will_complete" \/ direction data = "will_fail".



Hypothesis good_amount : 0 < amount data.



End Placement.

Section PlacementRefused.

Import Wagers.


End PlacementRefused.



(** A concrete call did not fail with a given kind: its status is
    another. *)
Ltac refute_kind :=
  let e := fresh "e" in
  let db1 := fresh "db" in
  let H := fresh "H" in
  let Hcode := fresh "Hcode" in
  intros (e & db1 & H & Hcode);
  vm_compute in H; injection H as <- _; discriminate Hcode.


Section Cancellation.

Import Wagers.

Variable db : DB.
Variable bet_id : Z.
Variable current_user : Z.

Local Abbreviation cancelled := (delete_bet db bet_id current_user).

Lemma cancel_not_found :
  find_bet db bet_id = None ->
  cancelled = Raised (mkHTTPException 404 "Bet not found") db.
Proof. unfold delete_bet. now intros ->. Qed.

Variable bet : Bet.
Hypothesis found : find_bet db bet_id = Some bet.

Lemma found_id : b_id bet = bet_id.
Proof. apply find_some in found. now apply Z.eqb_eq. Qed.

Lemma cancel_foreign :
  b_bettor_id bet <> current_user ->
  cancelled
  = Raised (mkHTTPException 403 "You can only delete your own bets") db.
Proof.
  unfold delete_bet. rewrite found. intros H.
  apply Z.eqb_neq in H. now rewrite H.
Qed.

Hypothesis own : b_bettor_id bet = current_user.

Lemma cancel_resolved :
  b_resolved bet = true ->
  cancelled = Raised (mkHTTPException 400 "Cannot delete a resolved bet") db.
Proof.
  unfold delete_bet. rewrite found, own, Z.eqb_refl. now intros ->.
Qed.

Hypothesis unresolved : b_resolved bet = false.

Variable commitment : Commitment.
Hypothesis parent :
  find_commitment db (b_commitment_id bet) = Some commitment.

Lemma cancel_not_pending :
  c_status commitment <> "pending" ->
  cancelled
  = Raised (mkHTTPException 400 "Cannot delete bet on a resolved goal") db.
Proof.
  unfold delete_bet. rewrite found, own, Z.eqb_refl, unresolved, parent.
  intros H. apply String.eqb_neq in H. now rewrite H.
Qed.

Lemma cancel_accepted :
  c_status commitment = "pending" ->
  cancelled
  = Returned tt
      (mkDB (users db)
            (credit_rows (balances db) current_user (b_amount bet))
            (commitments db)
            (filter (fun b => negb (b_id b =? bet_id)) (bets db))
            (context_messages db) (coaching_messages db)).
Proof.
  unfold delete_bet. rewrite found, own, Z.eqb_refl, unresolved, parent.
  intros ->. simpl. now rewrite found_id.
Qed.

End Cancellation.

(** C5: in every state that a history of calls leads to, the cancellation
    of a wager fails with [NotFound] when the wager does not exist, with
    [Forbidden] when the caller is not its bettor, with [InvalidState] when
    it is resolved or when its commitment is not pending; otherwise it
    succeeds, credits exactly the staked amount to the balance of the
    bettor, touches no other balance and deletes the wager.  It succeeds
    only when the caller is the bettor, the wager is unresolved and its
    commitment is pending. *)
Theorem cancellation_refunds_the_stake (history : list Ledger.call)
    (bet_id current_user : Z) :
  let db := Ledger.run empty_db history in
  let cancelled := Wagers.delete_bet db bet_id current_user in
  (find_bet db bet_id = None ->
   cancelled
   = Raised (mkHTTPException (Spec.status_of Spec.NotFound) "Bet not found") db)
  /\ (forall bet, find_bet db bet_id = Some bet ->
      (b_bettor_id bet <> current_user ->
       cancelled
       = Raised (mkHTTPException (Spec.status_of Spec.Forbidden)
                   "You can only delete your own bets") db)
      /\ (b_bettor_id bet = current_user ->
      (b_resolved bet = true ->
       cancelled
       = Raised (mkHTTPException (Spec.status_of Spec.InvalidState)
                   "Cannot delete a resolved bet") db)
      /\ (b_resolved bet = false ->
          exists commitment,
            find_commitment db (b_commitment_id bet) = Some commitment
            /\ (c_status commitment <> "pending" ->
                cancelled
                = Raised (mkHTTPException (Spec.status_of Spec.InvalidState)
                            "Cannot delete bet on a resolved goal") db)
            /\ (c_status commitment = "pending" ->
                exists db' held,
                  cancelled = Returned tt db'
                  /\ find_bet db' bet_id = None
                  /\ bets db'
                     = filter (fun b => negb (b_id b =? bet_id)) (bets db)
                  /\ Spec.balance_of db current_user = Some held
                  /\ Spec.balance_of db' current_user
                     = Some (held + b_amount bet)
                  /\ (forall v, v <> current_user ->
                         Spec.balance_of db' v = Spec.balance_of db v)))))
  /\ (forall db', cancelled = Returned tt db' ->
      exists bet commitment,
        find_bet db bet_id = Some bet
        /\ b_bettor_id bet = current_user
        /\ b_resolved bet = false
        /\ find_commitment db (b_commitment_id bet) = Some commitment
        /\ c_status commitment = "pending")
  /\ (forall e db', cancelled = Raised e db' -> db' = db).
Proof.
  cbv zeta.
  pose proof (LedgerFacts.sound_run history empty_db LedgerFacts.sound_empty)
    as (_ & _ & Hl).
  set (db := Ledger.run empty_db history) in *.
  rewrite Forall_forall in Hl.
  assert (Hparent : forall bet, find_bet db bet_id = Some bet ->
            exists c, find_commitment db (b_commitment_id bet) = Some c).
  { intros bet Hf. apply find_some in Hf. destruct Hf as [Hin _].
    destruct (Hl bet Hin) as [_ Hc].
    apply LedgerFacts.find_commitment_in in Hc.
    destruct (find_commitment db (b_commitment_id bet)) as [c|];
      [now exists c | contradiction]. }
  split; [apply cancel_not_found|]. split; [|split].
  - intros bet Hf. split; [now apply cancel_foreign|]. intros Ho.
    split; [now apply cancel_resolved|]. intros Hu.
    destruct (Hparent bet Hf) as [c Hc]. exists c. split; [exact Hc|].
    split; [now apply (cancel_not_pending db bet_id current_user bet)|].
    intros Hp.
    pose proof Hf as Hin. apply find_some in Hin. destruct Hin as [Hin _].
    destruct (Hl bet Hin) as [Ha _]. rewrite Ho in Ha.
    apply has_account_found in Ha. destruct Ha as [r Hr].
    exists (mkDB (users db)
                 (credit_rows (balances db) current_user (b_amount bet))
                 (commitments db)
                 (filter (fun b => negb (b_id b =? bet_id)) (bets db))
                 (context_messages db) (coaching_messages db)).
    exists (ub_balance r).
    split; [now apply (cancel_accepted db bet_id current_user bet Hf Ho Hu c)|].
    unfold Spec.balance_of, find_bet, find_balance. cbn [bets balances].
    split; [|split; [reflexivity|split; [|split]]].
    + apply find_none_all. intros x Hx. apply filter_In in Hx.
      destruct Hx as [_ Hx]. now apply negb_true_iff in Hx.
    + now rewrite Hr.
    + now rewrite find_credit_rows_same, Hr.
    + intros v Hv. now rewrite find_credit_rows_other.
  - intros db' E. apply EndpointFacts.delete_bet_returned in E.
    destruct E as (bet & Hf & Ho & Hu & Hp & _).
    destruct (Hparent bet Hf) as [c Hc].
    exists bet, c. repeat split; auto.
  - intros e db'. apply EndpointFacts.delete_bet_raised.
Qed.

Lemma cancellation_refunds_the_stake_witness :
  exists db' held,
    Wagers.delete_bet (Ledger.run empty_db Scenario.lone_bet) 1 2
    = Returned tt db'
    /\ find_bet db' 1 = None
    /\ bets db' = []
    /\ Spec.balance_of (Ledger.run empty_db Scenario.lone_bet) 2 = Some held
    /\ Spec.balance_of db' 2 = Some (held + 100)
    /\ (forall v, v <> 2 ->
           Spec.balance_of db' v
           = Spec.balance_of (Ledger.run empty_db Scenario.lone_bet) v).
Proof.
  destruct (cancellation_refunds_the_stake Scenario.lone_bet 1 2)
    as (_ & H & _).
  destruct (H (mkBet 1 1 2 "will_complete" 100 false None) eq_refl)
    as [_ H1].
  destruct (H1 eq_refl) as [_ H2].
  destruct (H2 eq_refl) as (c & Hc & _ & H3).
  injection Hc as <-.
  apply H3. reflexivity.
Defined.

(** ** The lifecycle controller *)

Section OwnedCommitments.

Variable db : DB.
Variable commitment_id : Z.
Variable current_user : Z.

(** The query by id and owner finds nothing when the id is unknown ... *)
Lemma no_commitment_none_owned :
  find_commitment db commitment_id = None ->
  find_owned_commitment db commitment_id current_user = None.
Proof.
  unfold find_commitment, find_owned_commitment. intros H.
  apply find_none_all. intros c Hc.
  apply (find_none _ _ H) in Hc. now rewrite Hc.
Qed.

(** ... and, the id being a key, when the commitment is another user's. *)
Lemma foreign_commitment_none_owned (commitment : Commitment) :
  NoDup (map c_id (commitments db)) ->
  find_commitment db commitment_id = Some commitment ->
  c_owner_id commitment <> current_user ->
  find_owned_commitment db commitment_id current_user = None.
Proof.
  intros Hnd Hf Ho.
  destruct (find_owned_commitment db commitment_id current_user) as [c2|]
    eqn:E; [exfalso | reflexivity].
  pose proof E as Hin2. apply find_some in Hin2. destruct Hin2 as [Hin2 _].
  apply LedgerFacts.find_owned_id in E. destruct E as [Hid2 Ho2].
  apply find_some in Hf. destruct Hf as [Hin Hid]. apply Z.eqb_eq in Hid.
  assert (commitment = c2)
    by (apply (same_id_same_row (commitments db)); congruence).
  congruence.
Qed.

End OwnedCommitments.

(** C6, as the code has it: the resolution raises 404, "Commitment not
    found", when the commitment does not exist and, with the same status
    and detail, when it exists and the caller is not its owner; it raises
    400 when the caller owns it and it is not pending.  In each case the
    state stays as it is. *)
Theorem resolution_refusals (db : DB) (cid : Z)
    (data : Lifecycle.CommitmentCompleteRequest) (u now : Z)
    (coaching : option string) :
  let resolved := Lifecycle.complete_commitment db cid data u now coaching in
  (find_commitment db cid = None ->
   resolved = Raised (mkHTTPException 404 "Commitment not found") db)
  /\ (NoDup (map c_id (commitments db)) ->
      forall c, find_commitment db cid = Some c -> c_owner_id c <> u ->
      resolved = Raised (mkHTTPException 404 "Commitment not found") db)
  /\ (forall c, find_owned_commitment db cid u = Some c ->
      c_status c <> "pending" ->
      resolved = Raised (mkHTTPException 400 "Commitment is already resolved")
                        db).
Proof.
  cbv zeta. unfold Lifecycle.complete_commitment. repeat split.
  - intros H. now rewrite no_commitment_none_owned.
  - intros Hnd c Hf Ho.
    now rewrite (foreign_commitment_none_owned db cid u c).
  - intros c -> H. apply String.eqb_neq in H. now rewrite H.
Qed.

Lemma resolution_refusals_witness :
  Lifecycle.complete_commitment (Ledger.run empty_db Scenario.signups) 1
    (Lifecycle.mkCompleteRequest true None None) 2 20 None
  = Raised (mkHTTPException 404 "Commitment not found")
           (Ledger.run empty_db Scenario.signups).
Proof.
  apply (proj1 (proj2 (resolution_refusals
                         (Ledger.run empty_db Scenario.signups) 1
                         (Lifecycle.mkCompleteRequest true None None) 2 20
                         None))
           ltac:(repeat constructor; simpl; tauto)
           (mkCommitment 1 1 1000 "pending" None None None)).
  - reflexivity.
  - discriminate.
Defined.

(** C6, as it is stated, fails for a caller who is not the owner: the
    resolution is refused with 404, not with the 403 of [Forbidden], and
    with the very response that an unknown id gets. *)
Lemma stranger_resolution_is_not_forbidden :
  let db := Ledger.run empty_db Scenario.signups in
  let data := Lifecycle.mkCompleteRequest true None None in
  ~ Spec.fails_with (Lifecycle.complete_commitment db 1 data 2 20 None)
      Spec.Forbidden
  /\ Lifecycle.complete_commitment db 1 data 2 20 None
     = Lifecycle.complete_commitment db 99 data 2 20 None.
Proof.
  cbv zeta. split; [|reflexivity].
  refute_kind.
Qed.




(** ** The AI client *)

Section Heuristic.







End Heuristic.



(** Ten hours required, five available, a week to go, no support either
    way and an even record: 0.417. *)
Lemma heuristic_example :
  AiClient.compute_heuristic_probability 10 5 7 0 0.5 = 0.417%float.
Proof. reflexivity. Qed.




(** * More of the backend *)

(** ** Shares are never negative *)

Section Signs.

Import Invariants.

Lemma binary_round_aux_sign (sx : bool) (mx ex : Z) (lx : SpecFloat.location) :
  match SpecFloat.binary_round_aux prec emax sx mx ex lx with
  | S754_zero s | S754_infinity s | S754_finite s _ _ => s = sx
  | S754_nan => True
  end.
Proof.
  unfold SpecFloat.binary_round_aux.
  destruct (SpecFloat.shr_fexp prec emax mx ex lx) as [mrs' e'].
  destruct (SpecFloat.shr_fexp prec emax _ e' SpecFloat.loc_Exact)
    as [mrs'' e''].
  destruct (SpecFloat.shr_m mrs''); [reflexivity | | exact I].
  destruct (e'' <=? emax - prec); reflexivity.
Qed.

Lemma of_uint63_unsigned (n : Uint63.int) :
  unsigned (Prim2SF (PrimFloat.of_uint63 n)).
Proof.
  rewrite of_uint63_spec. unfold SpecFloat.binary_normalize.
  pose proof (Uint63.to_Z_bounded n) as Hn.
  destruct (Uint63.to_Z n) as [|m|m]; [reflexivity | | lia].
  unfold SpecFloat.binary_round.
  destruct (SpecFloat.shl_align m 0 _) as [mz ez].
  pose proof (binary_round_aux_sign false (Z.pos mz) ez SpecFloat.loc_Exact)
    as H.
  unfold unsigned.
  destruct (SpecFloat.binary_round_aux prec emax false (Z.pos mz) ez
              SpecFloat.loc_Exact); exact H.
Qed.

Lemma float_of_int_unsigned (n : Z) :
  0 <= n -> unsigned (Prim2SF (Py.float_of_int n)).
Proof.
  intros Hn. unfold Py.float_of_int.
  destruct (n <? 0) eqn:E; [apply Z.ltb_lt in E; lia|].
  apply of_uint63_unsigned.
Qed.

Lemma div_unsigned (x y : float) :
  unsigned (Prim2SF x) -> unsigned (Prim2SF y) ->
  unsigned (Prim2SF (x / y)%float).
Proof.
  rewrite FloatAxioms.div_spec. unfold SF64div, SFdiv, unsigned.
  destruct (Prim2SF x) as [sx|sx| |sx mx ex];
    destruct (Prim2SF y) as [sy|sy| |sy my ey]; intros Hx Hy;
    try exact I; subst; try reflexivity.
  destruct (SFdiv_core_binary prec emax (Z.pos mx) ex (Z.pos my) ey)
    as [[mz ez] lz].
  apply (binary_round_aux_sign (xorb false false) mz ez lz).
Qed.

Lemma mul_unsigned (x y : float) :
  unsigned (Prim2SF x) -> unsigned (Prim2SF y) ->
  unsigned (Prim2SF (x * y)%float).
Proof.
  rewrite FloatAxioms.mul_spec. unfold SF64mul, SFmul, unsigned.
  destruct (Prim2SF x) as [sx|sx| |sx mx ex];
    destruct (Prim2SF y) as [sy|sy| |sy my ey]; intros Hx Hy;
    try exact I; subst; try reflexivity.
  apply (binary_round_aux_sign (xorb false false)).
Qed.

Lemma int_of_float_unsigned (x : float) :
  unsigned (Prim2SF x) -> 0 <= Py.int_of_float x.
Proof.
  unfold Py.int_of_float, unsigned.
  destruct (Prim2SF x) as [s|s| |s m e]; try lia.
  intros ->. destruct (0 <=? e) eqn:E.
  - apply Z.leb_le in E. apply Z.mul_nonneg_nonneg; [lia|].
    now apply Z.pow_nonneg.
  - apply Z.div_pos; [lia|]. apply Z.pow_pos_nonneg; [lia|].
    apply Z.leb_gt in E. lia.
Qed.

Lemma int_share_nonneg (amount total_winner_stakes pot : Z) :
  0 <= amount -> 0 <= total_winner_stakes -> 0 <= pot ->
  0 <= Settlement.int_share amount total_winner_stakes pot.
Proof.
  intros Ha Ht Hp. unfold Settlement.int_share, Py.fmul_int, Py.truediv.
  apply int_of_float_unsigned, mul_unsigned;
    [apply div_unsigned|]; now apply float_of_int_unsigned.
Qed.

End Signs.

(** ** No balance goes negative *)

Section Solvency.

Import Invariants Lifecycle Wagers Ledger LedgerFacts EndpointFacts.

Lemma credit_rows_nonneg (rows : list UserBalance) (uid amount : Z) :
  Forall (fun r => 0 <= ub_balance r) rows ->
  (forall r, find (fun r => ub_user_id r =? uid) rows = Some r ->
             0 <= ub_balance r + amount) ->
  Forall (fun r => 0 <= ub_balance r) (credit_rows rows uid amount).
Proof.
  induction rows as [|r rows IH]; intros Hall Hfound; [constructor|].
  inversion Hall as [|? ? Hr Hrest]; subst. cbn [credit_rows find] in *.
  destruct (ub_user_id r =? uid).
  - constructor; [|exact Hrest]. cbn. now apply Hfound.
  - constructor; [exact Hr | now apply IH].
Qed.

Lemma credit_rows_gain (rows : list UserBalance) (uid amount : Z) :
  Forall (fun r => 0 <= ub_balance r) rows -> 0 <= amount ->
  Forall (fun r => 0 <= ub_balance r) (credit_rows rows uid amount).
Proof.
  intros Hall Ha. apply credit_rows_nonneg; [exact Hall|].
  intros r Hr. apply find_some in Hr. destruct Hr as [Hr _].
  rewrite Forall_forall in Hall. specialize (Hall r Hr). lia.
Qed.

Lemma sum_nonneg {A : Type} (f : A -> Z) (xs : list A) :
  Forall (fun x => 0 <= f x) xs -> 0 <= Py.sum f xs.
Proof.
  induction 1 as [|x xs Hx _ IH]; [rewrite sum_nil | rewrite sum_cons]; lia.
Qed.

Lemma Forall_filter {A : Type} (P : A -> Prop) (p : A -> bool) (xs : list A) :
  Forall P xs -> Forall P (filter p xs).
Proof.
  intros H. apply Forall_forall. intros x Hx. apply filter_In in Hx.
  rewrite Forall_forall in H. now apply H.
Qed.

(** With positive stakes the pot is not negative ... *)
Lemma pot_nonneg (db : DB) (c : Commitment) :
  Forall (fun b => 0 < b_amount b) (bets db) -> 0 <= Settlement.pot db c.
Proof.
  intros H. unfold Settlement.pot, Settlement.losers,
    Settlement.unresolved_bets.
  apply sum_nonneg. do 2 apply Forall_filter. revert H.
  apply Forall_impl. intros b Hb. lia.
Qed.

(** ... and a winner is paid the stake at least. *)
Lemma winner_payout_covers_stake (t p : Z) (b : Bet) :
  0 <= b_amount b -> 0 <= p ->
  b_amount b <= Settlement.winner_payout t p b.
Proof.
  intros Ha Hp. unfold Settlement.winner_payout.
  destruct (t >? 0) eqn:E; [|lia].
  rewrite Z.gtb_ltb in E. apply Z.ltb_lt in E.
  pose proof (int_share_nonneg (b_amount b) t p Ha ltac:(lia) Hp). lia.
Qed.

Lemma fold_credit_nonneg (t p : Z) (ws : list Bet) (rows : list UserBalance) :
  Forall (fun r => 0 <= ub_balance r) rows ->
  Forall (fun b => 0 <= Settlement.winner_payout t p b) ws ->
  Forall (fun r => 0 <= ub_balance r)
         (fold_left (Settlement.credit_winner t p) ws rows).
Proof.
  revert rows. induction ws as [|w ws IH]; intros rows Hrows Hws;
    cbn [fold_left]; [exact Hrows|].
  inversion Hws as [|? ? Hw Hrest]; subst.
  apply IH; [|exact Hrest]. now apply credit_rows_gain.
Qed.

Lemma solvent_settled (db : DB) (c : Commitment) :
  solvent db -> solvent (Settlement.settled db c).
Proof.
  intros [Hb Ha]. split.
  - rewrite SettlementFacts.settled_balances.
    apply fold_credit_nonneg; [exact Hb|].
    unfold Settlement.winners, Settlement.unresolved_bets.
    do 2 apply Forall_filter. pose proof (pot_nonneg db c Ha) as Hpot.
    revert Ha. apply Forall_impl. intros b Hpos.
    pose proof (winner_payout_covers_stake
                  (Settlement.total_winner_stakes db c) (Settlement.pot db c)
                  b ltac:(lia) Hpot).
    lia.
  - rewrite SettlementFacts.settled_bets. apply Forall_map.
    revert Ha. apply Forall_impl. intros b Hpos.
    unfold Settlement.settle_row.
    now destruct (Settlement.selected c b).
Qed.

Lemma solvent_same_tables (db db' : DB) :
  balances db' = balances db /\ bets db' = bets db
  /\ commitments db' = commitments db ->
  solvent db -> solvent db'.
Proof. unfold solvent. now intros (-> & -> & _). Qed.

Lemma Forall_snoc {A : Type} (P : A -> Prop) (xs : list A) (x : A) :
  Forall P xs -> P x -> Forall P (xs ++ [x]).
Proof. intros H Hx. apply Forall_app. split; [exact H | now constructor]. Qed.

(** Every call keeps the ledger solvent. *)
Lemma solvent_exec (db : DB) (c : call) : solvent db -> solvent (exec db c).
Proof.
  intros Hs. pose proof Hs as [Hb Ha].
  destruct c as
    [email | u | deadline u | cid u | cid questions u | cid answer u
     | cid data u now coaching | cid data u now | bid u]; cbn [exec].
  - unfold Accounts.register.
    destruct (find _ (users db)); cbn [final_db]; [exact Hs|].
    split; cbn [balances bets]; [|exact Ha].
    apply Forall_snoc; [exact Hb | cbn; lia].
  - unfold Accounts.get_balance.
    destruct (find_balance db u); cbn [final_db]; [exact Hs|].
    split; cbn [balances bets set_balances]; [|exact Ha].
    apply Forall_snoc; [exact Hb | cbn; lia].
  - exact Hs.
  - unfold delete_commitment.
    destruct (find_owned_commitment db cid u); cbn [final_db]; [|exact Hs].
    destruct (_ >? 0); cbn [final_db]; exact Hs.
  - revert Hs. apply solvent_same_tables, generate_ai_questions_tables.
  - revert Hs. apply solvent_same_tables, submit_ai_answer_tables.
  - destruct (complete_commitment db cid data u now coaching) as [c' db'|e db']
      eqn:E; cbn [final_db].
    + apply complete_commitment_returned in E.
      destruct E as (c & _ & _ & _ & ->).
      assert (Hk : forall d k, solvent d -> solvent (store_coaching d c' k))
        by (intros d k; now destruct k).
      apply Hk, solvent_settled. exact Hs.
    + apply complete_commitment_raised in E. now destruct E as [-> _].
  - destruct (create_bet db cid data u now) as [bet db'|e db'] eqn:E;
      cbn [final_db].
    + apply create_bet_returned in E.
      destruct E as (c & rows & _ & _ & _ & _ & _ & Hpos & Hrows & Hbet & ->
                     & Hcover).
      assert (Hrows' : Forall (fun r => 0 <= ub_balance r) rows).
      { subst rows. destruct (has_account (balances db) u); [exact Hb|].
        apply Forall_snoc; [exact Hb | cbn; lia]. }
      split; cbn [balances bets].
      * apply credit_rows_nonneg; [exact Hrows'|].
        intros r Hr. specialize (Hcover r Hr). lia.
      * apply Forall_snoc; [exact Ha|]. subst bet. exact Hpos.
    + apply create_bet_raised in E. destruct E as [-> | [_ ->]]; [exact Hs|].
      split; cbn [balances bets set_balances]; [|exact Ha].
      apply Forall_snoc; [exact Hb | cbn; lia].
  - destruct (delete_bet db bid u) as [[] db'|e db'] eqn:E; cbn [final_db].
    + apply delete_bet_returned in E.
      destruct E as (bet & Hf & _ & _ & _ & ->).
      apply find_some in Hf. destruct Hf as [Hin _].
      rewrite Forall_forall in Ha. pose proof (Ha bet Hin) as Hpos.
      split; cbn [balances bets].
      * apply credit_rows_gain; [exact Hb | lia].
      * apply Forall_filter. now apply Forall_forall.
    + apply delete_bet_raised in E. now subst db'.
Qed.

End Solvency.

(** X1: along every history of calls from the empty store, no balance is
    negative and every stake is positive. *)
Theorem balances_never_negative (history : list Ledger.call) :
  let db := Ledger.run empty_db history in
  (forall r, In r (balances db) -> 0 <= ub_balance r)
  /\ (forall b, In b (bets db) -> 0 < b_amount b).
Proof.
  cbv zeta.
  assert (H : Invariants.solvent (Ledger.run empty_db history)).
  { unfold Ledger.run.
    assert (H0 : Invariants.solvent empty_db) by (split; constructor).
    revert H0. generalize empty_db.
    induction history as [|c history IH]; intros db H0; cbn [fold_left];
      [exact H0|].
    apply IH, solvent_exec, H0. }
  destruct H as [Hb Ha]. rewrite Forall_forall in Hb, Ha. auto.
Qed.

(** ** What histories keep *)

Section Histories.

Import Invariants Lifecycle Wagers Ledger LedgerFacts EndpointFacts.

(** What holds of the empty store and is kept by every call holds along
    every history. *)
Lemma run_invariant (P : DB -> Prop) :
  P empty_db -> (forall db c, P db -> P (exec db c)) ->
  forall history, P (run empty_db history).
Proof.
  intros H0 Hstep history. unfold run. revert H0. generalize empty_db.
  induction history as [|c history IH]; intros db H0; cbn [fold_left];
    [exact H0|].
  apply IH, Hstep, H0.
Qed.

Lemma paid_settle_row (db : DB) (c : Commitment) (b : Bet) :
  0 < b_amount b -> 0 <= Settlement.pot db c -> paid b ->
  paid (Settlement.settle_row c (Settlement.outcome_is_complete c)
          (Settlement.total_winner_stakes db c) (Settlement.pot db c) b).
Proof.
  intros Hpos Hpot Hb. unfold Settlement.settle_row.
  destruct (Settlement.selected c b); [|exact Hb].
  unfold paid. cbn [b_resolved b_payout b_amount].
  eexists. split; [reflexivity|].
  destruct (Settlement.is_winner _ b); [right | left; reflexivity].
  apply winner_payout_covers_stake; lia.
Qed.

Lemma paid_exec (db : DB) (c : call) :
  solvent db /\ Forall paid (bets db) ->
  solvent (exec db c) /\ Forall paid (bets (exec db c)).
Proof.
  intros [Hs Hp]. split; [now apply solvent_exec|].
  destruct c as
    [email | u | deadline u | cid u | cid questions u | cid answer u
     | cid data u now coaching | cid data u now | bid u]; cbn [exec].
  - unfold Accounts.register. now destruct (find _ (users db)).
  - unfold Accounts.get_balance. now destruct (find_balance db u).
  - exact Hp.
  - unfold delete_commitment.
    destruct (find_owned_commitment db cid u); cbn [final_db]; [|exact Hp].
    now destruct (_ >? 0).
  - destruct (generate_ai_questions_tables db cid questions u)
      as (_ & -> & _). exact Hp.
  - destruct (submit_ai_answer_tables db cid answer u) as (_ & -> & _).
    exact Hp.
  - destruct (complete_commitment db cid data u now coaching) as [c' db'|e db']
      eqn:E; cbn [final_db].
    + apply complete_commitment_returned in E.
      destruct E as (c & _ & _ & _ & ->).
      rewrite store_coaching_bets, SettlementFacts.settled_bets.
      set (db1 := set_commitments db _).
      destruct Hs as [_ Ha].
      pose proof (pot_nonneg db1 c' Ha) as Hpot.
      apply Forall_map. apply Forall_forall. intros b Hb.
      rewrite Forall_forall in Ha, Hp.
      apply paid_settle_row; [now apply Ha | exact Hpot | now apply Hp].
    + apply complete_commitment_raised in E. now destruct E as [-> _].
  - destruct (create_bet db cid data u now) as [bet db'|e db'] eqn:E;
      cbn [final_db].
    + apply create_bet_returned in E.
      destruct E as (c & rows & _ & _ & _ & _ & _ & _ & _ & Hbet & -> & _).
      cbn [bets]. apply Forall_snoc; [exact Hp|]. now subst bet.
    + apply create_bet_raised in E. now destruct E as [-> | [_ ->]].
  - destruct (delete_bet db bid u) as [[] db'|e db'] eqn:E; cbn [final_db].
    + apply delete_bet_returned in E.
      destruct E as (bet & _ & _ & _ & _ & ->).
      cbn [bets]. now apply Forall_filter.
    + apply delete_bet_raised in E. now subst db'.
Qed.

End Histories.

(** X2: along every history of calls, a wager that is not resolved has no
    payout, and a resolved wager has one, which is either the stake lost
    (minus the amount) or the amount and more. *)
Theorem payouts_follow_resolution (history : list Ledger.call) (b : Bet) :
  In b (bets (Ledger.run empty_db history)) ->
  (b_resolved b = false -> b_payout b = None)
  /\ (b_resolved b = true ->
      exists payout,
        b_payout b = Some payout
        /\ (payout = - b_amount b \/ b_amount b <= payout)).
Proof.
  intros Hin.
  pose proof (run_invariant
                (fun db => Invariants.solvent db
                           /\ Forall Invariants.paid (bets db))
                ltac:(repeat split; constructor) paid_exec history)
    as [_ Hp].
  rewrite Forall_forall in Hp. specialize (Hp b Hin).
  unfold Invariants.paid in Hp.
  destruct (b_resolved b); split; intros H; try discriminate; exact Hp.
Qed.

Lemma payouts_follow_resolution_witness :
  exists payout,
    Some 140 = Some payout /\ (payout = - 100 \/ 100 <= payout).
Proof.
  apply (proj2 (payouts_follow_resolution
                  (Scenario.example_bets ++ [Scenario.resolve_completed])
                  (mkBet 1 1 2 "will_complete" 100 true (Some 140))
                  ltac:(left; reflexivity))).
  reflexivity.
Defined.

(** ** Wagers and their commitments move in step *)

Section InStep.

Import Invariants Lifecycle Wagers Ledger LedgerFacts EndpointFacts.

Lemma find_filter_other (rows : list Commitment) (k cid : Z) :
  k <> cid ->
  find (fun c => c_id c =? k)
       (filter (fun c => negb (c_id c =? cid)) rows)
  = find (fun c => c_id c =? k) rows.
Proof.
  intros Hk. induction rows as [|r rows IH]; cbn [filter find]; [reflexivity|].
  destruct (c_id r =? cid) eqn:E; cbn [negb find].
  - apply Z.eqb_eq in E.
    destruct (c_id r =? k) eqn:E'; [apply Z.eqb_eq in E'; lia | exact IH].
  - destruct (c_id r =? k); [reflexivity | exact IH].
Qed.

Lemma find_update_owned_other (rows : list Commitment) (k cid u : Z)
    (updated : Commitment) :
  k <> cid -> c_id updated = cid ->
  find (fun c => c_id c =? k) (update_owned rows cid u updated)
  = find (fun c => c_id c =? k) rows.
Proof.
  intros Hk Hid. induction rows as [|r rows IH]; cbn [update_owned find];
    [reflexivity|].
  destruct ((c_id r =? cid) && (c_owner_id r =? u)) eqn:E; cbn [find].
  - apply andb_true_iff in E. destruct E as [E _]. apply Z.eqb_eq in E.
    rewrite Hid.
    destruct (cid =? k) eqn:E1; [apply Z.eqb_eq in E1; lia|].
    destruct (c_id r =? k) eqn:E2; [apply Z.eqb_eq in E2; lia|].
    reflexivity.
  - destruct (c_id r =? k); [reflexivity | exact IH].
Qed.

(** The id being a key, the resolved commitment is what a query by its id
    finds afterwards. *)
Lemma find_update_owned_same (rows : list Commitment) (cid u : Z)
    (c updated : Commitment) :
  NoDup (map c_id rows) ->
  find (fun r => (c_id r =? cid) && (c_owner_id r =? u)) rows = Some c ->
  c_id updated = cid ->
  find (fun r => c_id r =? cid) (update_owned rows cid u updated)
  = Some updated.
Proof.
  intros Hnd Hf Hid. induction rows as [|r rows IH]; [discriminate|].
  cbn [map] in Hnd. inversion Hnd as [|? ? Hnotin Hrest]; subst.
  cbn [find update_owned] in *.
  destruct ((c_id r =? c_id updated) && (c_owner_id r =? u)) eqn:E;
    cbn [find].
  - now rewrite Z.eqb_refl.
  - destruct (c_id r =? c_id updated) eqn:E1; [|now apply IH].
    exfalso. apply Z.eqb_eq in E1. apply find_some in Hf.
    destruct Hf as [Hin Hc]. apply andb_true_iff in Hc.
    destruct Hc as [Hc _]. apply Z.eqb_eq in Hc.
    apply Hnotin. rewrite E1, <- Hc. now apply in_map.
Qed.

Lemma in_step_same_tables (db db' : DB) :
  balances db' = balances db /\ bets db' = bets db
  /\ commitments db' = commitments db ->
  in_step db -> in_step db'.
Proof.
  unfold in_step, find_commitment. now intros (_ & -> & ->).
Qed.

Lemma in_step_exec (db : DB) (c : call) :
  sound db /\ in_step db -> sound (exec db c) /\ in_step (exec db c).
Proof.
  intros [Hs Hi]. split; [now apply sound_exec|].
  pose proof Hs as (Hnb & Hnc & Hl).
  unfold in_step in *. rewrite Forall_forall in Hi, Hl.
  destruct c as
    [email | u | deadline u | cid u | cid questions u | cid answer u
     | cid data u now coaching | cid data u now | bid u]; cbn [exec].
  - apply Forall_forall. unfold Accounts.register.
    destruct (find _ (users db)); exact Hi.
  - apply Forall_forall. unfold Accounts.get_balance.
    destruct (find_balance db u); exact Hi.
  - apply Forall_forall. intros b Hb c0.
    unfold create_commitment, find_commitment.
    cbn [final_db set_commitments commitments bets] in *.
    destruct (Hl b Hb) as [_ Hin]. apply find_commitment_in in Hin.
    unfold find_commitment in Hin.
    destruct (find (fun c => c_id c =? b_commitment_id b) (commitments db))
      as [c1|] eqn:Ef; [|contradiction].
    rewrite (find_app_found _ _ _ _ Ef). intros [= <-].
    apply (Hi b Hb). exact Ef.
  - unfold delete_commitment.
    destruct (find_owned_commitment db cid u) as [c1|] eqn:Ef;
      cbn [final_db]; [|now apply Forall_forall].
    destruct (_ >? 0) eqn:En; cbn [final_db]; [now apply Forall_forall|].
    apply find_owned_id in Ef. destruct Ef as [Hid _].
    assert (Hnone : filter (fun b => b_commitment_id b =? cid) (bets db) = []).
    { rewrite Z.gtb_ltb in En. apply Z.ltb_ge in En.
      destruct (filter _ (bets db)); [reflexivity|].
      cbn [List.length] in En. lia. }
    apply Forall_forall. intros b Hb c0. cbn [bets] in Hb.
    unfold find_commitment. cbn [commitments]. rewrite Hid.
    rewrite find_filter_other; [apply (Hi b Hb)|].
    intros Heq.
    assert (Hb' : In b (filter (fun b => b_commitment_id b =? cid) (bets db)))
      by (apply filter_In; split; [exact Hb | now apply Z.eqb_eq]).
    rewrite Hnone in Hb'. exact Hb'.
  - apply (in_step_same_tables db _
             (generate_ai_questions_tables db cid questions u)).
    now apply Forall_forall.
  - apply (in_step_same_tables db _ (submit_ai_answer_tables db cid answer u)).
    now apply Forall_forall.
  - destruct (complete_commitment db cid data u now coaching) as [c' db'|e db']
      eqn:E; cbn [final_db].
    + apply complete_commitment_returned in E.
      destruct E as (c & Hf & _ & Hc' & ->).
      assert (Hid : c_id c' = cid).
      { rewrite Hc'. cbn. now apply find_owned_id in Hf. }
      unfold find_commitment.
      rewrite store_coaching_bets, store_coaching_commitments,
        SettlementFacts.settled_bets, SettlementFacts.settled_commitments.
      cbn [set_commitments commitments bets].
      apply Forall_map. apply Forall_forall. intros b Hb c0.
      rewrite SettlementFacts.settle_row_commitment.
      destruct (Z.eq_dec (b_commitment_id b) cid) as [Hk | Hk].
      * rewrite Hk.
        rewrite (find_update_owned_same _ cid u c c' Hnc Hf Hid).
        intros [= <-].
        assert (Hnp : (c_status c' =? "pending")%string = false).
        { apply String.eqb_neq. rewrite Hc'. apply resolved_not_pending. }
        rewrite Hnp. cbn [negb].
        unfold Settlement.settle_row, Settlement.selected.
        rewrite Hk, Hid, Z.eqb_refl. cbn [andb].
        destruct (b_resolved b) eqn:Er; cbn [negb]; [exact Er | reflexivity].
      * rewrite (find_update_owned_other _ _ cid u c' Hk Hid).
        unfold Settlement.settle_row, Settlement.selected.
        rewrite Hid. apply Z.eqb_neq in Hk. rewrite Hk. cbn [andb].
        apply (Hi b Hb).
    + apply complete_commitment_raised in E. destruct E as [-> _].
      now apply Forall_forall.
  - destruct (create_bet db cid data u now) as [bet db'|e db'] eqn:E;
      cbn [final_db].
    + apply create_bet_returned in E.
      destruct E as (c & rows & Hf & _ & Hp & _ & _ & _ & _ & Hbet & -> & _).
      unfold find_commitment. cbn [bets commitments].
      apply Forall_snoc; [apply Forall_forall; exact Hi|].
      subst bet. cbn [b_commitment_id b_resolved].
      intros c0 Hc0. unfold find_commitment in Hf. rewrite Hf in Hc0.
      injection Hc0 as <-. now rewrite Hp.
    + apply create_bet_raised in E.
      destruct E as [-> | [_ ->]]; now apply Forall_forall.
  - destruct (delete_bet db bid u) as [[] db'|e db'] eqn:E; cbn [final_db].
    + apply delete_bet_returned in E.
      destruct E as (bet & _ & _ & _ & _ & ->).
      unfold find_commitment. cbn [bets commitments].
      apply Forall_filter. now apply Forall_forall.
    + apply delete_bet_raised in E. subst db'. now apply Forall_forall.
Qed.

End InStep.

(** X3: along every history of calls, every wager has its commitment in the
    registry, and the wager is resolved exactly when that commitment is no
    longer pending: no wager is open on a resolved commitment and none is
    resolved on a pending one. *)
Theorem wagers_in_step_with_commitments (history : list Ledger.call)
    (b : Bet) :
  In b (bets (Ledger.run empty_db history)) ->
  exists c,
    find_commitment (Ledger.run empty_db history) (b_commitment_id b) = Some c
    /\ (b_resolved b = false <-> c_status c = "pending").
Proof.
  intros Hin.
  pose proof (run_invariant
                (fun db => Ledger.sound db /\ Invariants.in_step db)
                (conj LedgerFacts.sound_empty (Forall_nil _))
                in_step_exec history)
    as [(_ & _ & Hl) Hi].
  unfold Invariants.in_step in Hi. rewrite Forall_forall in Hi, Hl.
  destruct (Hl b Hin) as [_ Hc]. apply LedgerFacts.find_commitment_in in Hc.
  destruct (find_commitment _ (b_commitment_id b)) as [c|] eqn:Ef;
    [|contradiction].
  exists c. split; [reflexivity|].
  rewrite (Hi b Hin c Ef).
  destruct (c_status c =? "pending")%string eqn:E; cbn [negb].
  - apply String.eqb_eq in E. tauto.
  - apply String.eqb_neq in E. split; [discriminate | contradiction].
Qed.

Lemma wagers_in_step_with_commitments_witness :
  exists c,
    find_commitment
      (Ledger.run empty_db
         (Scenario.example_bets ++ [Scenario.resolve_completed])) 1
    = Some c
    /\ (true = false <-> c_status c = "pending").
Proof.
  apply (wagers_in_step_with_commitments
           (Scenario.example_bets ++ [Scenario.resolve_completed])
           (mkBet 1 1 2 "will_complete" 100 true (Some 140))).
  left. reflexivity.
Defined.

(** X4: along every history of calls, the ids of the wagers and of the
    commitments stay keys, and the bettor of every wager has a balance
    row. *)
Theorem keys_and_references_kept (history : list Ledger.call) :
  let db := Ledger.run empty_db history in
  NoDup (map b_id (bets db))
  /\ NoDup (map c_id (commitments db))
  /\ (forall b, In b (bets db) ->
        exists r, find_balance db (b_bettor_id b) = Some r
                  /\ ub_user_id r = b_bettor_id b).
Proof.
  cbv zeta.
  destruct (LedgerFacts.sound_run history empty_db LedgerFacts.sound_empty)
    as (Hb & Hc & Hl).
  split; [exact Hb|]. split; [exact Hc|].
  intros b Hin. rewrite Forall_forall in Hl. destruct (Hl b Hin) as [Ha _].
  apply has_account_found in Ha. destruct Ha as [r Hr].
  exists r. split; [exact Hr|].
  apply find_some in Hr. now apply Z.eqb_eq.
Qed.

(** ** Resolved wagers and resolved commitments stay as they are *)

Section Permanence.

Import Lifecycle Wagers Ledger LedgerFacts EndpointFacts.

Lemma resolved_row_kept (db : DB) (c : call) (b : Bet) :
  sound db -> In b (bets db) -> b_resolved b = true ->
  In b (bets (exec db c)).
Proof.
  intros (Hnd & _ & _) Hin Hres.
  destruct c as
    [email | u | deadline u | cid u | cid questions u | cid answer u
     | cid data u now coaching | cid data u now | bid u]; cbn [exec].
  - unfold Accounts.register. now destruct (find _ (users db)).
  - unfold Accounts.get_balance. now destruct (find_balance db u).
  - exact Hin.
  - unfold delete_commitment.
    destruct (find_owned_commitment db cid u); cbn [final_db]; [|exact Hin].
    now destruct (_ >? 0).
  - destruct (generate_ai_questions_tables db cid questions u)
      as (_ & -> & _). exact Hin.
  - destruct (submit_ai_answer_tables db cid answer u) as (_ & -> & _).
    exact Hin.
  - destruct (complete_commitment db cid data u now coaching) as [c' db'|e db']
      eqn:E; cbn [final_db].
    + apply complete_commitment_returned in E.
      destruct E as (c & _ & _ & _ & ->).
      rewrite store_coaching_bets, SettlementFacts.settled_bets.
      apply in_map_iff. exists b. split; [|exact Hin].
      unfold Settlement.settle_row, Settlement.selected.
      rewrite Hres. cbn [negb]. now rewrite andb_false_r.
    + apply complete_commitment_raised in E. now destruct E as [-> _].
  - destruct (create_bet db cid data u now) as [bet db'|e db'] eqn:E;
      cbn [final_db].
    + apply create_bet_returned in E.
      destruct E as (c & rows & _ & _ & _ & _ & _ & _ & _ & _ & -> & _).
      cbn [bets]. apply in_or_app. now left.
    + apply create_bet_raised in E. now destruct E as [-> | [_ ->]].
  - destruct (delete_bet db bid u) as [[] db'|e db'] eqn:E; cbn [final_db].
    + apply delete_bet_returned in E.
      destruct E as (bet & Hf & _ & Hopen & _ & ->).
      cbn [bets]. apply filter_In. split; [exact Hin|].
      apply negb_true_iff. apply Z.eqb_neq. intros Hid.
      apply find_some in Hf. destruct Hf as [Hin' _].
      assert (b = bet); [|congruence].
      clear - Hnd Hin Hin' Hid.
      induction (bets db) as [|x rows IH]; [contradiction|].
      cbn [map] in Hnd. inversion Hnd as [|? ? Hnotin Hrest]; subst.
      destruct Hin as [-> | Hin]; destruct Hin' as [-> | Hin']; auto.
      * exfalso. apply Hnotin. rewrite Hid. now apply in_map.
      * exfalso. apply Hnotin. rewrite <- Hid. now apply in_map.
    + apply delete_bet_raised in E. now subst db'.
Qed.

Lemma update_owned_rows (rows : list Commitment) (cid u : Z)
    (updated x : Commitment) :
  In x (update_owned rows cid u updated) -> In x rows \/ x = updated.
Proof.
  induction rows as [|r rows IH]; cbn [update_owned]; [tauto|].
  destruct ((c_id r =? cid) && (c_owner_id r =? u)).
  - intros [<- | H]; [now right | left; now right].
  - intros [<- | H]; [left; now left|].
    destruct (IH H); [left; now right | now right].
Qed.

Lemma update_owned_keeps (rows : list Commitment) (cid u : Z)
    (c updated x : Commitment) :
  find (fun r => (c_id r =? cid) && (c_owner_id r =? u)) rows = Some c ->
  In x rows -> x <> c -> In x (update_owned rows cid u updated).
Proof.
  induction rows as [|r rows IH]; cbn [find update_owned]; [discriminate|].
  destruct ((c_id r =? cid) && (c_owner_id r =? u)).
  - intros [= <-] [-> | H] Hx; [contradiction | now right].
  - intros Hf [-> | H] Hx; [now left | right; now apply IH].
Qed.

End Permanence.

(** X5: in every state that a history of calls leads to, no call changes
    or deletes a resolved wager: its amount, its direction and its payout
    are fixed for good. *)
Theorem resolved_wagers_are_permanent (history : list Ledger.call)
    (c : Ledger.call) (b : Bet) :
  In b (bets (Ledger.run empty_db history)) ->
  b_resolved b = true ->
  In b (bets (Ledger.exec (Ledger.run empty_db history) c)).
Proof.
  apply resolved_row_kept.
  apply LedgerFacts.sound_run, LedgerFacts.sound_empty.
Qed.

Lemma resolved_wagers_are_permanent_witness :
  In (mkBet 1 1 2 "will_complete" 100 true (Some 140))
     (bets (Ledger.exec
              (Ledger.run empty_db
                 (Scenario.example_bets ++ [Scenario.resolve_completed]))
              (Ledger.DeleteBet 1 2))).
Proof.
  apply (resolved_wagers_are_permanent
           (Scenario.example_bets ++ [Scenario.resolve_completed])
           (Ledger.DeleteBet 1 2));
    [left|]; reflexivity.
Defined.

(** X6: whatever the state and the call, the commitments after the call
    are commitments from before, or the pending commitment that the call
    created, or the resolution as completed or failed of a commitment that
    was pending, with its id, owner and deadline unchanged; and a commitment
    that is not pending stays as it is until it is deleted. *)
Theorem status_moves_forward_only (db : DB) (c : Ledger.call) :
  (forall r', In r' (commitments (Ledger.exec db c)) ->
      In r' (commitments db)
      \/ (c_status r' = "pending"
          /\ c_id r' = next_id (map c_id (commitments db)))
      \/ (exists r, In r (commitments db)
            /\ c_status r = "pending"
            /\ c_id r' = c_id r /\ c_owner_id r' = c_owner_id r
            /\ c_deadline r' = c_deadline r
            /\ (c_status r' = "completed" \/ c_status r' = "failed")))
  /\ (forall r, In r (commitments db) -> c_status r <> "pending" ->
        In r (commitments (Ledger.exec db c))
        \/ ~ In (c_id r) (map c_id (commitments (Ledger.exec db c)))).
Proof.
  destruct c as
    [email | u | deadline u | cid u | cid questions u | cid answer u
     | cid data u now coaching | cid data u now | bid u]; cbn [Ledger.exec].
  - unfold Accounts.register. destruct (find _ (users db)); now auto.
  - unfold Accounts.get_balance. destruct (find_balance db u); now auto.
  - unfold Lifecycle.create_commitment.
    cbn [final_db set_commitments commitments]. split.
    + intros r' Hin. apply in_app_or in Hin.
      destruct Hin as [Hin | [<- | []]]; [now left|]. right. left. now split.
    + intros r Hin _. left. apply in_or_app. now left.
  - unfold Lifecycle.delete_commitment.
    destruct (find_owned_commitment db cid u) as [c1|]; cbn [final_db];
      [|now auto].
    destruct (_ >? 0); cbn [final_db commitments]; [now auto|]. split.
    + intros r' Hin. apply filter_In in Hin. now left.
    + intros r Hin _. destruct (c_id r =? c_id c1) eqn:E.
      * right. intros H. apply in_map_iff in H.
        destruct H as (x & Hx & Hxin). apply filter_In in Hxin.
        destruct Hxin as [_ Hxin]. rewrite Hx, E in Hxin. discriminate.
      * left. apply filter_In. split; [exact Hin | now rewrite E].
  - destruct (LedgerFacts.generate_ai_questions_tables db cid questions u)
      as (_ & _ & ->). now auto.
  - destruct (LedgerFacts.submit_ai_answer_tables db cid answer u)
      as (_ & _ & ->). now auto.
  - destruct (Lifecycle.complete_commitment db cid data u now coaching)
      as [c' db'|e db'] eqn:E; cbn [final_db].
    + apply EndpointFacts.complete_commitment_returned in E.
      destruct E as (c & Hf & Hp & Hc' & ->).
      rewrite store_coaching_commitments,
        SettlementFacts.settled_commitments.
      cbn [set_commitments commitments]. split.
      * intros r' Hin. apply update_owned_rows in Hin.
        destruct Hin as [Hin | ->]; [now left|]. right. right.
        exists c. split; [apply find_some in Hf; tauto|].
        split; [exact Hp|]. rewrite Hc'. cbn.
        repeat split. destruct (Lifecycle.completed data); auto.
      * intros r Hin Hr. left.
        apply (update_owned_keeps _ cid u c); [exact Hf | exact Hin|].
        intros ->. contradiction.
    + apply EndpointFacts.complete_commitment_raised in E.
      destruct E as [-> _]. now auto.
  - destruct (Wagers.create_bet db cid data u now) as [bet db'|e db'] eqn:E;
      cbn [final_db].
    + apply EndpointFacts.create_bet_returned in E.
      destruct E as (c & rows & _ & _ & _ & _ & _ & _ & _ & _ & -> & _).
      now auto.
    + apply EndpointFacts.create_bet_raised in E.
      destruct E as [-> | [_ ->]]; now auto.
  - destruct (Wagers.delete_bet db bid u) as [[] db'|e db'] eqn:E;
      cbn [final_db].
    + apply EndpointFacts.delete_bet_returned in E.
      destruct E as (bet & _ & _ & _ & _ & ->). now auto.
    + apply EndpointFacts.delete_bet_raised in E. subst db'. now auto.
Qed.

Lemma status_moves_forward_only_witness :
  In Scenario.completed_commitment
     (commitments
        (Ledger.exec
           (Ledger.run empty_db
              (Scenario.example_bets ++ [Scenario.resolve_completed]))
           Scenario.resolve_failed))
  \/ ~ In 1 (map c_id
               (commitments
                  (Ledger.exec
                     (Ledger.run empty_db
                        (Scenario.example_bets ++ [Scenario.resolve_completed]))
                     Scenario.resolve_failed))).
Proof.
  apply (proj2 (status_moves_forward_only
                  (Ledger.run empty_db
                     (Scenario.example_bets ++ [Scenario.resolve_completed]))
                  Scenario.resolve_failed)
           Scenario.completed_commitment).
  - left. reflexivity.
  - discriminate.
Defined.

(** ** Placing and cancelling *)

Section RoundTrip.

Import Wagers EndpointFacts.

Lemma credit_rows_back (rows : list UserBalance) (uid amount : Z) :
  credit_rows (credit_rows rows uid (- amount)) uid amount = rows.
Proof.
  induction rows as [|r rows IH]; cbn [credit_rows]; [reflexivity|].
  destruct (ub_user_id r =? uid) eqn:E; cbn [credit_rows ub_user_id].
  - rewrite E. destruct r as [i v]. cbn. f_equal. f_equal. lia.
  - now rewrite E, IH.
Qed.

Lemma find_fresh_row (rows : list Bet) (bet : Bet) :
  ~ In (b_id bet) (map b_id rows) ->
  find (fun b => b_id b =? b_id bet) (rows ++ [bet]) = Some bet
  /\ filter (fun b => negb (b_id b =? b_id bet)) (rows ++ [bet]) = rows.
Proof.
  intros Hfresh.
  assert (Hother : forall x, In x rows -> (b_id x =? b_id bet) = false).
  { intros x Hx. apply Z.eqb_neq. intros Heq. apply Hfresh.
    rewrite <- Heq. now apply in_map. }
  split.
  - rewrite find_app_missing by now apply find_none_all.
    cbn. now rewrite Z.eqb_refl.
  - rewrite filter_app. cbn. rewrite Z.eqb_refl. cbn. rewrite app_nil_r.
    apply forallb_filter_id. apply forallb_forall. intros x Hx.
    now rewrite (Hother x Hx).
Qed.

End RoundTrip.

(** X7: a wager that was just placed can be cancelled by its bettor, and
    the cancellation undoes the placement: the wagers and all the balances
    are what they were before, except that a bettor who had no balance row
    keeps the row of 500 that the placement created. *)
Theorem place_then_cancel (db db' : DB) (cid : Z) (data : Wagers.BetCreate)
    (u now : Z) (bet : Bet) :
  Wagers.create_bet db cid data u now = Returned bet db' ->
  Wagers.delete_bet db' (b_id bet) u
  = Returned tt
      (if has_account (balances db) u then db
       else set_balances db (balances db ++ [mkUserBalance u 500])).
Proof.
  intros E. apply EndpointFacts.create_bet_returned in E.
  destruct E as (c & rows & Hf & _ & Hp & _ & _ & _ & Hrows & Hbet & -> & _).
  assert (Hfresh : ~ In (b_id bet) (map b_id (bets db)))
    by (subst bet; apply next_id_fresh).
  destruct (find_fresh_row (bets db) bet Hfresh) as [Hfind Hfilter].
  unfold Wagers.delete_bet, find_bet, find_commitment. cbn [bets commitments].
  rewrite Hfind.
  replace (b_bettor_id bet) with u by now subst bet.
  replace (b_resolved bet) with false by now subst bet.
  replace (b_commitment_id bet) with cid by now subst bet.
  replace (b_amount bet) with (Wagers.amount data) by now subst bet.
  rewrite Z.eqb_refl. cbn [negb].
  unfold find_commitment in Hf. rewrite Hf, Hp, String.eqb_refl.
  cbn [negb balances users context_messages coaching_messages].
  rewrite Hfilter, credit_rows_back. subst rows.
  destruct (has_account (balances db) u); [now destruct db|reflexivity].
Qed.

Lemma place_then_cancel_witness :
  Wagers.delete_bet (Ledger.run empty_db Scenario.lone_bet) 1 2
  = Returned tt (Ledger.run empty_db Scenario.signups).
Proof.
  apply (place_then_cancel (Ledger.run empty_db Scenario.signups)
           (Ledger.run empty_db Scenario.lone_bet) 1
           (Wagers.mkBetCreate "will_complete" 100) 2 10
           (mkBet 1 1 2 "will_complete" 100 false None)).
  reflexivity.
Defined.

(** ** The order of the wagers does not matter to a settlement *)

Section Order.

Lemma credit_rows_swap (rows : list UserBalance) (u v a b : Z) :
  credit_rows (credit_rows rows u a) v b
  = credit_rows (credit_rows rows v b) u a.
Proof.
  induction rows as [|r rows IH]; cbn [credit_rows]; [reflexivity|].
  destruct (ub_user_id r =? u) eqn:Eu; destruct (ub_user_id r =? v) eqn:Ev;
    cbn [credit_rows ub_user_id ub_balance]; rewrite ?Eu, ?Ev;
    cbn [credit_rows ub_user_id ub_balance]; rewrite ?Eu, ?Ev.
  - f_equal. f_equal. lia.
  - reflexivity.
  - reflexivity.
  - now rewrite IH.
Qed.

Lemma fold_credit_permuted (t p : Z) (ws ws' : list Bet) :
  Permutation ws ws' ->
  forall rows,
    fold_left (Settlement.credit_winner t p) ws rows
    = fold_left (Settlement.credit_winner t p) ws' rows.
Proof.
  induction 1 as [|x l l' _ IH|x y l|l l' l'' _ IH1 _ IH2]; intros rows;
    cbn [fold_left].
  - reflexivity.
  - apply IH.
  - unfold Settlement.credit_winner at 2 3 5 6. now rewrite credit_rows_swap.
  - now rewrite IH1.
Qed.

Lemma filter_permuted {A : Type} (p : A -> bool) (xs ys : list A) :
  Permutation xs ys -> Permutation (filter p xs) (filter p ys).
Proof.
  induction 1 as [|x l l' _ IH|x y l|l l' l'' _ IH1 _ IH2]; cbn [filter].
  - constructor.
  - destruct (p x); [now constructor | exact IH].
  - destruct (p x); destruct (p y); try apply Permutation_refl.
    apply perm_swap.
  - now apply Permutation_trans with (filter p l').
Qed.

Lemma sum_permuted {A : Type} (f : A -> Z) (xs ys : list A) :
  Permutation xs ys -> Py.sum f xs = Py.sum f ys.
Proof.
  induction 1 as [|x l l' _ IH|x y l|l l' l'' _ IH1 _ IH2];
    rewrite ?sum_cons; lia.
Qed.

End Order.

(** X8: a settlement does not depend on the order in which the query
    returns the wagers: on two stores that hold the same wagers in
    different orders, and the same balances, it leaves the same balances
    and the same wagers, row for row. *)
Theorem settlement_ignores_order (db1 db2 : DB) (commitment : Commitment) :
  Permutation (bets db1) (bets db2) ->
  balances db1 = balances db2 ->
  balances (Settlement.settled db1 commitment)
  = balances (Settlement.settled db2 commitment)
  /\ Permutation (bets (Settlement.settled db1 commitment))
                 (bets (Settlement.settled db2 commitment))
  /\ Settlement.remainder db1 commitment = Settlement.remainder db2 commitment.
Proof.
  intros Hperm Hbal.
  assert (Hw : Permutation (Settlement.winners db1 commitment)
                           (Settlement.winners db2 commitment))
    by (unfold Settlement.winners, Settlement.unresolved_bets;
        now do 2 apply filter_permuted).
  assert (Hl : Permutation (Settlement.losers db1 commitment)
                           (Settlement.losers db2 commitment))
    by (unfold Settlement.losers, Settlement.unresolved_bets;
        now do 2 apply filter_permuted).
  assert (Ht : Settlement.total_winner_stakes db1 commitment
               = Settlement.total_winner_stakes db2 commitment)
    by (unfold Settlement.total_winner_stakes; now apply sum_permuted).
  assert (Hp : Settlement.pot db1 commitment = Settlement.pot db2 commitment)
    by (unfold Settlement.pot; now apply sum_permuted).
  rewrite !SettlementFacts.settled_balances, !SettlementFacts.settled_bets.
  unfold Settlement.remainder, Settlement.remainder_of.
  rewrite Ht, Hp, Hbal. split; [|split].
  - now apply fold_credit_permuted.
  - now apply Permutation_map.
  - f_equal. now apply sum_permuted.
Qed.

Lemma settlement_ignores_order_witness :
  let db := Ledger.run empty_db Scenario.example_bets in
  balances (Settlement.settled (set_bets db (rev (bets db)))
                               Scenario.completed_commitment)
  = balances (Settlement.settled db Scenario.completed_commitment).
Proof.
  cbv zeta.
  apply (settlement_ignores_order
           (set_bets (Ledger.run empty_db Scenario.example_bets)
                     (rev (bets (Ledger.run empty_db Scenario.example_bets))))
           (Ledger.run empty_db Scenario.example_bets)
           Scenario.completed_commitment);
    [apply Permutation_sym, Permutation_rev | reflexivity].
Defined.

(** ** Users and their accounts *)

Section Enrolment.

Import Lifecycle Wagers Ledger LedgerFacts EndpointFacts Invariants.

Lemma add_contexts_users (db : DB) (cid : Z) (role : string)
    (contents : list string) :
  users (fold_left (fun d content => add_context d cid role content)
                   contents db) = users db.
Proof.
  revert db.
  induction contents as [|content contents IH]; intros db; cbn [fold_left];
    [reflexivity|].
  now rewrite IH.
Qed.

Lemma settled_users (db : DB) (c : Commitment) :
  users (Settlement.settled db c) = users db.
Proof.
  unfold Settlement.settled. now rewrite SettlementFacts.resolve_bets_state.
Qed.

(** Only a registration writes to the table of users. *)
Lemma users_kept (db : DB) (c : call) :
  (forall email, c <> Register email) -> users (exec db c) = users db.
Proof.
  intros Hc.
  destruct c as
    [email | u | deadline u | cid u | cid questions u | cid answer u
     | cid data u now coaching | cid data u now | bid u]; cbn [exec].
  - now destruct (Hc email).
  - unfold Accounts.get_balance. now destruct (find_balance db u).
  - reflexivity.
  - unfold delete_commitment.
    destruct (find_owned_commitment db cid u); [|reflexivity].
    now destruct (_ >? 0).
  - unfold generate_ai_questions.
    destruct (find_owned_commitment db cid u); cbn [final_db];
      [apply add_contexts_users | reflexivity].
  - unfold submit_ai_answer.
    now destruct (find_owned_commitment db cid u).
  - destruct (complete_commitment db cid data u now coaching) as [c' db'|e db']
      eqn:E; cbn [final_db].
    + apply complete_commitment_returned in E.
      destruct E as (c & _ & _ & _ & ->).
      transitivity
        (users (Settlement.settled
                  (set_commitments db
                     (update_owned (commitments db) cid u c')) c'));
        [now destruct coaching | now rewrite settled_users].
    + apply complete_commitment_raised in E. now destruct E as [-> _].
  - destruct (create_bet db cid data u now) as [bet db'|e db'] eqn:E;
      cbn [final_db].
    + apply create_bet_returned in E.
      now destruct E as (c & rows & _ & _ & _ & _ & _ & _ & _ & _ & -> & _).
    + apply create_bet_raised in E. now destruct E as [-> | [_ ->]].
  - destruct (delete_bet db bid u) as [[] db'|e db'] eqn:E; cbn [final_db].
    + apply delete_bet_returned in E.
      now destruct E as (bet & _ & _ & _ & _ & ->).
    + apply delete_bet_raised in E. now subst db'.
Qed.

(** No call takes a balance row away. *)
Lemma accounts_kept (db : DB) (c : call) (v : Z) :
  has_account (balances db) v = true ->
  has_account (balances (exec db c)) v = true.
Proof.
  intros H.
  destruct c as
    [email | u | deadline u | cid u | cid questions u | cid answer u
     | cid data u now coaching | cid data u now | bid u]; cbn [exec].
  - unfold Accounts.register.
    destruct (find _ (users db)); cbn [final_db balances];
      [exact H | apply has_account_grow, H].
  - unfold Accounts.get_balance.
    destruct (find_balance db u); cbn [final_db balances set_balances];
      [exact H | apply has_account_grow, H].
  - exact H.
  - unfold delete_commitment.
    destruct (find_owned_commitment db cid u); [|exact H].
    destruct (_ >? 0); exact H.
  - destruct (generate_ai_questions_tables db cid questions u) as (-> & _).
    exact H.
  - destruct (submit_ai_answer_tables db cid answer u) as (-> & _). exact H.
  - destruct (complete_commitment db cid data u now coaching) as [c' db'|e db']
      eqn:E; cbn [final_db].
    + apply complete_commitment_returned in E.
      destruct E as (c & _ & _ & _ & ->).
      assert (Hk : forall d k, balances (store_coaching d c' k) = balances d)
        by (intros d k; now destruct k).
      rewrite Hk, SettlementFacts.settled_accounts. exact H.
    + apply complete_commitment_raised in E. now destruct E as [-> _].
  - destruct (create_bet db cid data u now) as [bet db'|e db'] eqn:E;
      cbn [final_db].
    + apply create_bet_returned in E.
      destruct E as (c & rows & _ & _ & _ & _ & _ & _ & Hrows & _ & -> & _).
      cbn [balances]. rewrite has_account_credit. subst rows.
      destruct (has_account (balances db) u);
        [exact H | apply has_account_grow, H].
    + apply create_bet_raised in E. destruct E as [-> | [_ ->]]; [exact H|].
      apply has_account_grow, H.
  - destruct (delete_bet db bid u) as [[] db'|e db'] eqn:E; cbn [final_db].
    + apply delete_bet_returned in E.
      destruct E as (bet & _ & _ & _ & _ & ->).
      cbn [balances]. now rewrite has_account_credit.
    + apply delete_bet_raised in E. now subst db'.
Qed.

Lemma enrolled_exec (db : DB) (c : call) :
  enrolled db -> enrolled (exec db c).
Proof.
  intros (He & Hi & Ha).
  assert (Hkept : Forall (fun u => has_account (balances (exec db c)) (u_id u)
                                   = true) (users db)).
  { revert Ha. apply Forall_impl. intros u. apply accounts_kept. }
  destruct c as [email | | | | | | | |];
    try (unfold enrolled; rewrite users_kept by discriminate; now auto).
  revert Hkept. cbn [exec]. unfold Accounts.register.
  destruct (find (fun u => (u_email u =? email)%string) (users db)) eqn:F;
    cbn [final_db]; intros Hkept; [now repeat split|].
  unfold enrolled. cbn [users balances] in *. rewrite !map_app. cbn [map].
  split; [|split].
  - apply NoDup_app; [exact He | repeat constructor; auto |].
    intros x Hx [<- | []]. apply in_map_iff in Hx.
    destruct Hx as (u & Hu & Hin).
    apply (find_none _ _ F) in Hin. rewrite Hu, String.eqb_refl in Hin.
    discriminate.
  - apply NoDup_snoc; [exact Hi | apply next_id_fresh].
  - apply Forall_snoc; [exact Hkept|]. cbn [u_id]. apply has_account_snoc.
Qed.

End Enrolment.

(** X9: in every state that a history of calls leads to, no two users share
    an e-mail or an id, and every registered user holds a balance row: no
    call takes one away. *)
Theorem registered_users_hold_accounts (history : list Ledger.call) :
  let db := Ledger.run empty_db history in
  NoDup (map u_email (users db))
  /\ NoDup (map u_id (users db))
  /\ (forall u, In u (users db) -> find_balance db (u_id u) <> None).
Proof.
  cbv zeta.
  assert (H : Invariants.enrolled (Ledger.run empty_db history)).
  { apply run_invariant; [repeat split; constructor|].
    intros db c. apply enrolled_exec. }
  destruct H as (He & Hi & Ha). split; [exact He|]. split; [exact Hi|].
  intros u Hin. rewrite Forall_forall in Ha. specialize (Ha u Hin).
  apply has_account_found in Ha. destruct Ha as [r Hr].
  unfold find_balance. now rewrite Hr.
Qed.

Lemma registered_users_hold_accounts_witness :
  find_balance (Ledger.run empty_db Scenario.example_bets) 2 <> None.
Proof.
  apply (proj2 (proj2 (registered_users_hold_accounts Scenario.example_bets))
           (mkUser 2 "a@x")).
  vm_compute. auto.
Defined.

(** ** Statistics *)

Section Statistics.

Import Lifecycle LedgerFacts EndpointFacts.

(** The count of the commitments of a user in a status, as a sum over the
    whole table. *)
Lemma count_as_sum (status : string) (v : Z) (rows : list Commitment) :
  Stats.count status (filter (fun c => c_owner_id c =? v) rows)
  = Py.sum (fun c => if (c_owner_id c =? v) && (c_status c =? status)%string
                     then 1 else 0) rows.
Proof.
  unfold Stats.count. induction rows as [|r rows IH]; [reflexivity|].
  cbn [filter]. rewrite sum_cons.
  destruct (c_owner_id r =? v); cbn [andb filter]; [|rewrite IH; lia].
  destruct (c_status r =? status)%string; [rewrite sum_cons|]; rewrite IH; lia.
Qed.

Lemma sum_update_owned (f : Commitment -> Z) (rows : list Commitment)
    (cid u : Z) (c c' : Commitment) :
  find (fun r => (c_id r =? cid) && (c_owner_id r =? u)) rows = Some c ->
  Py.sum f (update_owned rows cid u c') = Py.sum f rows - f c + f c'.
Proof.
  induction rows as [|r rows IH]; cbn [find update_owned]; [discriminate|].
  destruct ((c_id r =? cid) && (c_owner_id r =? u)).
  - intros [= ->]. rewrite !sum_cons. lia.
  - intros H. rewrite !sum_cons, (IH H). lia.
Qed.

(** The counts of a user after a resolution by [u] that went through. *)
Lemma count_resolved (db db' : DB) (cid : Z) (data : CommitmentCompleteRequest)
    (u now : Z) (coaching : option string) (c' : Commitment)
    (status : string) (v : Z) :
  complete_commitment db cid data u now coaching = Returned c' db' ->
  Stats.count status (filter (fun c => c_owner_id c =? v) (commitments db'))
  = Stats.count status (filter (fun c => c_owner_id c =? v) (commitments db))
    + (if v =? u
       then (if (c_status c' =? status)%string then 1 else 0)
            - (if ("pending" =? status)%string then 1 else 0)
       else 0).
Proof.
  intros E. apply complete_commitment_returned in E.
  destruct E as (c & Hf & Hp & Hc' & ->).
  rewrite store_coaching_commitments, SettlementFacts.settled_commitments.
  cbn [set_commitments commitments]. rewrite !count_as_sum.
  rewrite (sum_update_owned _ _ _ _ c c' Hf).
  destruct (find_owned_id db cid u c Hf) as [_ Ho].
  assert (Ho' : c_owner_id c' = u) by (now rewrite Hc').
  rewrite Ho, Ho', Hp, (Z.eqb_sym u v).
  destruct (v =? u); cbn [andb]; lia.
Qed.

End Statistics.

(** X10: a resolution that goes through moves exactly one commitment of
    the owner from pending to completed or failed in the statistics of
    [get_user_stats], and leaves the statistics of every other user, the
    success rate included, as they were. *)
Theorem resolution_moves_one_commitment (db db' : DB) (cid : Z)
    (data : Lifecycle.CommitmentCompleteRequest) (u now : Z)
    (coaching : option string) (c' : Commitment) :
  Lifecycle.complete_commitment db cid data u now coaching = Returned c' db' ->
  let before := Stats.get_user_stats db u in
  let after := Stats.get_user_stats db' u in
  Stats.pending_count after = Stats.pending_count before - 1
  /\ Stats.completed_count after
     = Stats.completed_count before
       + (if Lifecycle.completed data then 1 else 0)
  /\ Stats.failed_count after
     = Stats.failed_count before + (if Lifecycle.completed data then 0 else 1)
  /\ (forall v, v <> u ->
        Stats.get_user_stats db' v = Stats.get_user_stats db v).
Proof.
  intros E. cbv zeta.
  pose proof (fun st v => count_resolved db db' cid data u now coaching c'
                            st v E) as Hcount.
  assert (Hst : c_status c'
                = if Lifecycle.completed data then "completed" else "failed").
  { apply EndpointFacts.complete_commitment_returned in E.
    destruct E as (c & _ & _ & -> & _). reflexivity. }
  unfold Stats.get_user_stats.
  cbn [Stats.pending_count Stats.completed_count Stats.failed_count].
  split; [|split; [|split]].
  - rewrite Hcount, Z.eqb_refl, Hst.
    destruct (Lifecycle.completed data); cbn; lia.
  - rewrite Hcount, Z.eqb_refl, Hst.
    destruct (Lifecycle.completed data); cbn; lia.
  - rewrite Hcount, Z.eqb_refl, Hst.
    destruct (Lifecycle.completed data); cbn; lia.
  - intros v Hv. apply Z.eqb_neq in Hv.
    rewrite !Hcount, Hv, !Z.add_0_r. reflexivity.
Qed.

Lemma resolution_moves_one_commitment_witness :
  Stats.pending_count
    (Stats.get_user_stats
       (Ledger.run empty_db
          (Scenario.example_bets ++ [Scenario.resolve_completed])) 1)
  = Stats.pending_count
      (Stats.get_user_stats (Ledger.run empty_db Scenario.example_bets) 1) - 1.
Proof.
  apply (resolution_moves_one_commitment
           (Ledger.run empty_db Scenario.example_bets)
           (Ledger.run empty_db
              (Scenario.example_bets ++ [Scenario.resolve_completed]))
           1 (Lifecycle.mkCompleteRequest true None None) 1 20 None
           Scenario.completed_commitment).
  reflexivity.
Defined.

(** ** The predictor *)

Section Prediction.

Import Predictor.

Lemma ltb_leb (a b : float) :
  PrimFloat.ltb a b = true -> PrimFloat.leb a b = true.
Proof.
  rewrite FloatAxioms.ltb_spec, FloatAxioms.leb_spec.
  unfold SpecFloat.SFltb, SpecFloat.SFleb.
  destruct (SpecFloat.SFcompare _ _) as [[]|]; congruence.
Qed.

(** [max(0.0, min(1.0, p))] lies in the unit interval, whatever [p] is; a
    NaN goes to [1.0]. *)
Lemma normalised_unit (p : float) :
  let c := Py.max 0 (Py.min 1 p) in
  PrimFloat.leb 0 c = true /\ PrimFloat.leb c 1 = true.
Proof.
  cbv zeta. unfold Py.max, Py.min.
  destruct (PrimFloat.ltb p 1) eqn:E1.
  - destruct (PrimFloat.ltb 0 p) eqn:E0; [|split; reflexivity].
    split; now apply ltb_leb.
  - split; reflexivity.
Qed.

Lemma prefix_app (p s : string) : String.prefix p (p ++ s) = true.
Proof.
  induction p as [|ch p IH]; [now destruct s|].
  cbn [append String.prefix].
  destruct (Ascii.ascii_dec ch ch); [exact IH | contradiction].
Qed.

(** The fence of three backticks is not a prefix of a string without
    backticks. *)
Lemma no_backtick_no_fence (s : string) :
  no_backtick s = true -> String.prefix "```" s = false.
Proof.
  destruct s as [|ch s]; [reflexivity|]. cbn [no_backtick String.prefix].
  intros H. apply andb_true_iff in H. destruct H as [H _].
  destruct (Ascii.ascii_dec "`" ch) as [<-|]; [discriminate | reflexivity].
Qed.

(** What comes before the fence that closes a text without backticks is
    this text. *)
Lemma before_fence_closed (body rest : string) :
  no_backtick body = true ->
  before_fence (body ++ "```" ++ rest) = body.
Proof.
  induction body as [|ch body IH]; [intros _; now destruct rest|].
  cbn [no_backtick]. intros H. apply andb_true_iff in H.
  destruct H as [Hch Hbody].
  change (String ch body ++ "```" ++ rest)%string
    with (String ch (body ++ "```" ++ rest)).
  cbn [before_fence].
  replace (String.prefix "```" (String ch (body ++ "```" ++ rest)))
    with false.
  - now rewrite (IH Hbody).
  - cbn [String.prefix].
    destruct (Ascii.ascii_dec "`" ch) as [<-|]; [discriminate | reflexivity].
Qed.

End Prediction.

(** X11: whatever the chat returns and however the reply parses, the
    prediction has a probability in the unit interval and one of the three
    confidence labels; a probability that is not a number becomes 1.0. *)
Theorem prediction_normalised (strip : string -> string)
    (loads : string -> option AiClient.json)
    (float_of : AiClient.json -> option float)
    (str_of : AiClient.json -> string) (lower : string -> string)
    (reply : option string) :
  let r :=
    Predictor.predict_commitment_outcome strip loads float_of str_of lower
      reply in
  PrimFloat.leb 0 (Predictor.probability r) = true
  /\ PrimFloat.leb (Predictor.probability r) 1 = true
  /\ In (Predictor.confidence_label r) ["high"; "medium"; "low"]
  /\ Py.max 0 (Py.min 1 PrimFloat.nan) = 1%float.
Proof.
  cbv zeta.
  assert (Hfallback :
            PrimFloat.leb 0 (Predictor.probability Predictor.fallback) = true
            /\ PrimFloat.leb (Predictor.probability Predictor.fallback) 1
               = true
            /\ In (Predictor.confidence_label Predictor.fallback)
                  ["high"; "medium"; "low"]
            /\ Py.max 0 (Py.min 1 PrimFloat.nan) = 1%float).
  { repeat split. cbn. auto. }
  unfold Predictor.predict_commitment_outcome.
  destruct reply as [response|]; [|exact Hfallback].
  destruct (loads _) as [[| | | | |result]|]; try exact Hfallback.
  destruct (float_of _) as [p|]; [|exact Hfallback].
  cbn [Predictor.probability Predictor.confidence_label].
  destruct (normalised_unit p) as [H0 H1].
  split; [exact H0|]. split; [exact H1|]. split; [|reflexivity].
  destruct (existsb _ _) eqn:E; [|cbn; auto].
  apply existsb_exists in E. destruct E as (x & Hx & Heq).
  apply String.eqb_eq in Heq. now rewrite Heq.
Qed.

(** X12: a reply wrapped in a fenced block, with or without the [json]
    tag, is unwrapped to the text between the fences, and a reply without
    backticks is parsed as it is. *)
Theorem fenced_reply_unwrapped (body rest : string) :
  Predictor.no_backtick body = true ->
  Predictor.unfence ("```json" ++ body ++ "```" ++ rest) = body
  /\ (String.prefix "json" body = false ->
      Predictor.unfence ("```" ++ body ++ "```" ++ rest) = body)
  /\ Predictor.unfence body = body.
Proof.
  intros H. split; [|split].
  - unfold Predictor.unfence.
    change ("```json" ++ body ++ "```" ++ rest)%string
      with ("```" ++ ("json" ++ body ++ "```" ++ rest))%string.
    rewrite (prefix_app "```").
    change (Predictor.drop 3 ("```" ++ ("json" ++ body ++ "```" ++ rest)))
      with ("json" ++ (body ++ "```" ++ rest))%string.
    change (Predictor.before_fence ("json" ++ (body ++ "```" ++ rest)))
      with ("json" ++ Predictor.before_fence (body ++ "```" ++ rest))%string.
    rewrite (before_fence_closed body rest H), (prefix_app "json").
    reflexivity.
  - intros Hj. unfold Predictor.unfence. rewrite (prefix_app "```").
    change (Predictor.drop 3 ("```" ++ body ++ "```" ++ rest))
      with (body ++ "```" ++ rest)%string.
    rewrite (before_fence_closed body rest H), Hj. reflexivity.
  - unfold Predictor.unfence. now rewrite (no_backtick_no_fence body H).
Qed.

Lemma fenced_reply_unwrapped_witness :
  Predictor.unfence ("```json" ++ "{}" ++ "```" ++ "") = "{}".
Proof.
  apply (proj1 (fenced_reply_unwrapped "{}" "" eq_refl)).
Defined.

(** ** The coach *)

Section Coaching.

Import Lifecycle EndpointFacts.

Lemma store_coaching_tables (db : DB) (c : Commitment)
    (coaching : option string) :
  users (store_coaching db c coaching) = users db
  /\ balances (store_coaching db c coaching) = balances db
  /\ commitments (store_coaching db c coaching) = commitments db
  /\ bets (store_coaching db c coaching) = bets db
  /\ context_messages (store_coaching db c coaching) = context_messages db.
Proof. now destruct coaching. Qed.


End Coaching.

(** X13: what the coach says, and whether it says anything at all, has no
    effect on a resolution: with any two outcomes of the call of the coach
    the endpoint raises the same error, or returns the same commitment and
    leaves the same users, balances, commitments, wagers and context
    messages. *)
Theorem coach_never_changes_the_ledger (db : DB) (cid : Z)
    (data : Lifecycle.CommitmentCompleteRequest) (u now : Z)
    (k1 k2 : option string) :
  match Lifecycle.complete_commitment db cid data u now k1,
        Lifecycle.complete_commitment db cid data u now k2 with
  | Returned c1 db1, Returned c2 db2 =>
      c1 = c2
      /\ users db1 = users db2
      /\ balances db1 = balances db2
      /\ commitments db1 = commitments db2
      /\ bets db1 = bets db2
      /\ context_messages db1 = context_messages db2
  | Raised e1 db1, Raised e2 db2 => e1 = e2 /\ db1 = db /\ db2 = db
  | _, _ => False
  end.
Proof.
  destruct (Lifecycle.complete_commitment db cid data u now k1)
    as [c1 db1|e1 db1] eqn:E1;
    destruct (Lifecycle.complete_commitment db cid data u now k2)
      as [c2 db2|e2 db2] eqn:E2.
  - apply EndpointFacts.complete_commitment_returned in E1, E2.
    destruct E1 as (c & Hf & _ & Hc1 & ->).
    destruct E2 as (c0 & Hf0 & _ & Hc2 & ->).
    rewrite Hf in Hf0. injection Hf0 as <-. rewrite <- Hc1 in Hc2. subst c2.
    split; [reflexivity|].
    destruct (store_coaching_tables
                (Settlement.settled
                   (set_commitments db
                      (Lifecycle.update_owned (commitments db) cid u c1)) c1)
                c1 k1) as (-> & -> & -> & -> & ->).
    destruct (store_coaching_tables
                (Settlement.settled
                   (set_commitments db
                      (Lifecycle.update_owned (commitments db) cid u c1)) c1)
                c1 k2) as (-> & -> & -> & -> & ->).
    now repeat split.
  - apply EndpointFacts.complete_commitment_returned in E1.
    apply EndpointFacts.complete_commitment_raised in E2.
    destruct E1 as (c & Hf & Hp & _).
    destruct E2 as [_ [[Hn _] | (c0 & Hf0 & Hp0 & _)]]; [congruence|].
    rewrite Hf in Hf0. injection Hf0 as <-. contradiction.
  - apply EndpointFacts.complete_commitment_returned in E2.
    apply EndpointFacts.complete_commitment_raised in E1.
    destruct E2 as (c & Hf & Hp & _).
    destruct E1 as [_ [[Hn _] | (c0 & Hf0 & Hp0 & _)]]; [congruence|].
    rewrite Hf in Hf0. injection Hf0 as <-. contradiction.
  - apply EndpointFacts.complete_commitment_raised in E1, E2.
    destruct E1 as [-> [[Hn1 ->] | (c & Hf & _ & ->)]];
      destruct E2 as [-> [[Hn2 ->] | (c0 & Hf0 & _ & ->)]];
      try congruence; now repeat split.
Qed.



(** ** The interview *)

Section Interview.

Import Lifecycle.

(** The context messages after a run of [add_context]. *)
Lemma add_contexts_messages (cid : Z) (role : string)
    (contents : list string) (db : DB) :
  exists new,
    context_messages
      (fold_left (fun d content => add_context d cid role content)
                 contents db)
    = context_messages db ++ new
    /\ map m_content new = contents
    /\ Forall (fun m => m_commitment_id m = cid /\ m_role m = role) new
    /\ (NoDup (map m_id (context_messages db)) ->
        NoDup (map m_id (context_messages db ++ new))).
Proof.
  revert db. induction contents as [|content contents IH]; intros db;
    cbn [fold_left].
  - exists []. rewrite app_nil_r. repeat split; auto.
  - destruct (IH (add_context db cid role content))
      as (new & Hnew & Hc & Hall & Hnd).
    exists (mkMessage (next_id (map m_id (context_messages db))) cid role
                      content :: new).
    rewrite Hnew. cbn [add_context context_messages] in *.
    rewrite <- app_assoc in *. cbn [app] in *.
    split; [reflexivity|]. split; [cbn [map m_content]; now rewrite Hc|].
    split; [constructor; [now split | exact Hall]|].
    intros H. apply Hnd. rewrite map_app. cbn [map m_id].
    apply LedgerFacts.NoDup_snoc; [exact H | apply next_id_fresh].
Qed.

End Interview.

(** X15: for the owner of a commitment, [generate_ai_questions] returns
    the questions and appends them, in their order and each under the role
    [ai] and the id of the commitment, to the context messages, whose ids
    stay keys; for anyone else it raises 404 and stores nothing. *)
Theorem questions_stored_in_order (db : DB) (cid : Z)
    (questions : list string) (u : Z) :
  match Lifecycle.generate_ai_questions db cid questions u with
  | Returned asked db' =>
      asked = questions
      /\ find_owned_commitment db cid u <> None
      /\ exists new,
           context_messages db' = context_messages db ++ new
           /\ map m_content new = questions
           /\ Forall (fun m => m_commitment_id m = cid /\ m_role m = "ai") new
           /\ (NoDup (map m_id (context_messages db)) ->
               NoDup (map m_id (context_messages db')))
  | Raised e db' =>
      e = mkHTTPException 404 "Commitment not found"
      /\ db' = db
      /\ find_owned_commitment db cid u = None
  end.
Proof.
  unfold Lifecycle.generate_ai_questions.
  destruct (find_owned_commitment db cid u) as [c|] eqn:Hf;
    [|now repeat split].
  split; [reflexivity|]. split; [discriminate|].
  destruct (LedgerFacts.find_owned_id db cid u c Hf) as [Hid _].
  rewrite Hid.
  destruct (add_contexts_messages cid "ai" questions db)
    as (new & Hnew & Hc & Hall & Hnd).
  exists new. rewrite Hnew. auto.
Qed.

(** ** Settled records *)

Section Records.

Import Lifecycle Wagers Ledger LedgerFacts EndpointFacts Invariants.

Lemma wager_counted (rows : list Bet) (b : Bet) (cid : Z) :
  In b rows -> b_commitment_id b = cid ->
  (Z.of_nat (List.length (filter (fun x => b_commitment_id x =? cid) rows))
   >? 0) = true.
Proof.
  intros Hin Hid.
  assert (H : In b (filter (fun x => b_commitment_id x =? cid) rows))
    by (apply filter_In; split; [exact Hin | now apply Z.eqb_eq]).
  destruct (filter _ rows); [contradiction|]. apply Z.gtb_lt.
  cbn [List.length]. lia.
Qed.

(** No call touches the record of a commitment that is not pending and
    has a wager. *)
Lemma record_kept (db : DB) (k : call) (b : Bet) (c : Commitment) :
  sound db -> In b (bets db) ->
  find_commitment db (b_commitment_id b) = Some c ->
  c_status c <> "pending" ->
  find_commitment (exec db k) (b_commitment_id b) = Some c.
Proof.
  intros (_ & Hnd & _) Hin Hc Hst. unfold find_commitment in *.
  destruct k as
    [email | u | deadline u | cid u | cid questions u | cid answer u
     | cid data u now coaching | cid data u now | bid u]; cbn [exec].
  - unfold Accounts.register. now destruct (find _ (users db)).
  - unfold Accounts.get_balance. now destruct (find_balance db u).
  - cbn [create_commitment final_db set_commitments commitments].
    now apply find_app_found.
  - unfold delete_commitment.
    destruct (find_owned_commitment db cid u) as [c1|] eqn:Hf;
      cbn [final_db]; [|exact Hc].
    destruct (Z.eq_dec (b_commitment_id b) cid) as [Hid|Hid].
    + now rewrite (wager_counted (bets db) b cid Hin Hid).
    + destruct (_ >? 0); cbn [final_db commitments]; [exact Hc|].
      destruct (find_owned_id db cid u c1 Hf) as [-> _].
      now rewrite find_filter_other.
  - destruct (generate_ai_questions_tables db cid questions u)
      as (_ & _ & ->). exact Hc.
  - destruct (submit_ai_answer_tables db cid answer u) as (_ & _ & ->).
    exact Hc.
  - destruct (complete_commitment db cid data u now coaching) as [c' db'|e db']
      eqn:E; cbn [final_db].
    + apply complete_commitment_returned in E.
      destruct E as (c0 & Hf & Hp & Hc' & ->).
      rewrite store_coaching_commitments,
        SettlementFacts.settled_commitments.
      cbn [set_commitments commitments].
      destruct (find_owned_id db cid u c0 Hf) as [Hid0 _].
      destruct (Z.eq_dec (b_commitment_id b) cid) as [Hid|Hid].
      * exfalso. apply Hst.
        apply find_some in Hf, Hc. destruct Hf as [Hin0 _].
        destruct Hc as [Hinc Hidc]. apply Z.eqb_eq in Hidc.
        assert (c = c0); [|now subst].
        apply (same_id_same_row (commitments db)); auto. lia.
      * rewrite find_update_owned_other; [exact Hc | exact Hid|].
        now rewrite Hc'.
    + apply complete_commitment_raised in E. now destruct E as [-> _].
  - destruct (create_bet db cid data u now) as [bet db'|e db'] eqn:E;
      cbn [final_db].
    + apply create_bet_returned in E.
      now destruct E as (c1 & rows & _ & _ & _ & _ & _ & _ & _ & _ & -> & _).
    + apply create_bet_raised in E. now destruct E as [-> | [_ ->]].
  - destruct (delete_bet db bid u) as [[] db'|e db'] eqn:E; cbn [final_db].
    + apply delete_bet_returned in E.
      now destruct E as (bet & _ & _ & _ & _ & ->).
    + apply delete_bet_raised in E. now subst db'.
Qed.

Lemma record_kept_run (later : list call) (db : DB) (b : Bet)
    (c : Commitment) :
  sound db -> In b (bets db) -> b_resolved b = true ->
  find_commitment db (b_commitment_id b) = Some c ->
  c_status c <> "pending" ->
  find_commitment (run db later) (b_commitment_id b) = Some c
  /\ In b (bets (run db later)).
Proof.
  unfold run. revert db.
  induction later as [|k later IH]; intros db Hs Hin Hres Hc Hst;
    cbn [fold_left]; [now split|].
  apply IH; [now apply sound_exec | now apply resolved_row_kept | exact Hres
             | now apply record_kept | exact Hst].
Qed.

End Records.

(** X16: once a wager on a commitment is resolved, the record of the
    commitment is closed for good: whatever calls follow, the commitment is
    never deleted, its row (status, report, evidence, time of completion)
    never changes, and the wager stays on the books. *)
Theorem settled_records_are_permanent (history later : list Ledger.call)
    (b : Bet) (c : Commitment) :
  In b (bets (Ledger.run empty_db history)) ->
  b_resolved b = true ->
  find_commitment (Ledger.run empty_db history) (b_commitment_id b) = Some c ->
  c_status c <> "pending"
  /\ find_commitment (Ledger.run (Ledger.run empty_db history) later)
                     (b_commitment_id b) = Some c
  /\ In b (bets (Ledger.run (Ledger.run empty_db history) later)).
Proof.
  intros Hin Hres Hc.
  assert (Hst : c_status c <> "pending").
  { assert (H : Ledger.sound (Ledger.run empty_db history)
                 /\ Invariants.in_step (Ledger.run empty_db history)).
    { apply (run_invariant
               (fun db => Ledger.sound db /\ Invariants.in_step db));
        [split; [apply LedgerFacts.sound_empty | constructor]|].
      intros db k. apply in_step_exec. }
    destruct H as [_ H].
    unfold Invariants.in_step in H. rewrite Forall_forall in H.
    specialize (H b Hin c Hc). rewrite Hres in H.
    intros Hp. rewrite Hp in H. discriminate. }
  split; [exact Hst|].
  apply record_kept_run; auto.
  apply LedgerFacts.sound_run, LedgerFacts.sound_empty.
Qed.

Lemma settled_records_are_permanent_witness :
  find_commitment
    (Ledger.run
       (Ledger.run empty_db
          (Scenario.example_bets ++ [Scenario.resolve_completed]))
       [Ledger.DeleteCommitment 1 1; Scenario.resolve_failed])
    1 = Some Scenario.completed_commitment.
Proof.
  refine (proj1 (proj2 (settled_records_are_permanent
           (Scenario.example_bets ++ [Scenario.resolve_completed])
           [Ledger.DeleteCommitment 1 1; Scenario.resolve_failed]
           (mkBet 1 1 2 "will_complete" 100 true (Some 140))
           Scenario.completed_commitment _ _ _)));
    [left|reflexivity|]; reflexivity.
Defined.

(** ** A settlement without losers *)

Section Unanimous.

Import Settlement.

(** The share of an empty pot is nothing, whatever the quotient. *)
Lemma int_share_no_pot (amount total_winner_stakes : Z) :
  int_share amount total_winner_stakes 0 = 0.
Proof.
  unfold int_share, Py.fmul_int, Py.int_of_float.
  rewrite FloatAxioms.mul_spec.
  change (Prim2SF (Py.float_of_int 0)) with (S754_zero false).
  unfold SF64mul, SFmul.
  destruct (Prim2SF (Py.truediv amount total_winner_stakes))
    as [s|s| |s m e]; reflexivity.
Qed.

Lemma winner_payout_no_pot (total_winner_stakes : Z) (b : Bet) :
  winner_payout total_winner_stakes 0 b = b_amount b.
Proof.
  unfold winner_payout. rewrite int_share_no_pot.
  destruct (total_winner_stakes >? 0); lia.
Qed.

End Unanimous.

(** X17: when no open wager on the commitment is on the losing side, the
    pot is empty and the settlement pays every winner exactly the stake:
    no rounding remainder is left, and the balances grow by the stakes of
    the winners who hold a balance row. *)
Theorem unanimous_settlement_returns_stakes (db : DB) (c : Commitment) :
  Settlement.losers db c = [] ->
  (forall b, In b (bets db) -> Settlement.selected c b = true ->
     In (mkBet (b_id b) (b_commitment_id b) (b_bettor_id b) (b_direction b)
               (b_amount b) true (Some (b_amount b)))
        (bets (Settlement.settled db c)))
  /\ Settlement.remainder db c = 0
  /\ Py.sum ub_balance (balances (Settlement.settled db c))
     = Py.sum ub_balance (balances db)
       + Py.sum b_amount
           (filter (fun b => has_account (balances db) (b_bettor_id b))
                   (Settlement.winners db c)).
Proof.
  intros Hl.
  assert (Hpot : Settlement.pot db c = 0)
    by (unfold Settlement.pot; now rewrite Hl).
  split; [|split].
  - intros b Hin Hsel. rewrite SettlementFacts.settled_bets.
    apply in_map_iff. exists b. split; [|exact Hin].
    unfold Settlement.settle_row. rewrite Hsel, Hpot.
    assert (Hw : Settlement.is_winner (Settlement.outcome_is_complete c) b
                 = true).
    { destruct (Settlement.is_winner (Settlement.outcome_is_complete c) b)
        eqn:E; [reflexivity|].
      assert (Hb : In b (Settlement.losers db c)).
      { apply filter_In. split; [|now rewrite E].
        apply filter_In. now split. }
      rewrite Hl in Hb. contradiction. }
    now rewrite Hw, winner_payout_no_pot.
  - unfold Settlement.remainder, Settlement.remainder_of. rewrite Hpot.
    rewrite (sum_ext _ (fun _ => 0)).
    + induction (Settlement.winners db c) as [|w ws IH];
        [reflexivity | rewrite sum_cons; lia].
    + intros b _. rewrite winner_payout_no_pot. lia.
  - rewrite SettlementFacts.settled_total, Hpot. f_equal.
    apply sum_ext. intros b _. apply winner_payout_no_pot.
Qed.

Lemma unanimous_settlement_returns_stakes_witness :
  Settlement.remainder
    (Ledger.run empty_db
       (Scenario.signups
        ++ [Ledger.CreateBet 1 (Wagers.mkBetCreate "will_complete" 100) 2 10]))
    Scenario.completed_commitment = 0.
Proof.
  apply (proj1 (proj2 (unanimous_settlement_returns_stakes
           (Ledger.run empty_db
              (Scenario.signups
               ++ [Ledger.CreateBet 1 (Wagers.mkBetCreate "will_complete" 100)
                     2 10]))
           Scenario.completed_commitment eq_refl))).
Defined.

(** ** Wagers at arm's length *)

Section ArmsLength.

Import Lifecycle Wagers Ledger LedgerFacts EndpointFacts Invariants.

(** Where ids are keys, the commitment that an owner finds is the one found
    by its id. *)
Lemma find_owned_found (db : DB) (cid u : Z) (c : Commitment) :
  NoDup (map c_id (commitments db)) ->
  find_owned_commitment db cid u = Some c -> find_commitment db cid = Some c.
Proof.
  intros Hnd Hf. pose proof (find_owned_id db cid u c Hf) as [Hid _].
  apply find_some in Hf. destruct Hf as [Hin _].
  destruct (find_commitment db cid) as [c1|] eqn:E.
  - unfold find_commitment in E. apply find_some in E.
    destruct E as [Hin1 Hid1]. apply Z.eqb_eq in Hid1. f_equal.
    apply (same_id_same_row (commitments db)); auto. lia.
  - exfalso. unfold find_commitment in E.
    apply (find_none _ _ E) in Hin. apply Z.eqb_neq in Hin. contradiction.
Qed.

Lemma settle_row_direction (c : Commitment) (o : bool) (t p : Z) (b : Bet) :
  b_direction (Settlement.settle_row c o t p b) = b_direction b.
Proof.
  unfold Settlement.settle_row. now destruct (Settlement.selected c b).
Qed.

Lemma arms_length_same_tables (db db' : DB) :
  balances db' = balances db /\ bets db' = bets db
  /\ commitments db' = commitments db ->
  arms_length db -> arms_length db'.
Proof.
  unfold arms_length, find_commitment. now intros (_ & -> & ->).
Qed.

Lemma arms_length_exec (db : DB) (k : call) :
  sound db /\ arms_length db ->
  sound (exec db k) /\ arms_length (exec db k).
Proof.
  intros [Hs Hi]. split; [now apply sound_exec|].
  pose proof Hs as (Hnb & Hnc & Hl).
  unfold arms_length in *. rewrite Forall_forall in Hi, Hl.
  destruct k as
    [email | u | deadline u | cid u | cid questions u | cid answer u
     | cid data u now coaching | cid data u now | bid u]; cbn [exec].
  - apply Forall_forall. unfold Accounts.register.
    destruct (find _ (users db)); exact Hi.
  - apply Forall_forall. unfold Accounts.get_balance.
    destruct (find_balance db u); exact Hi.
  - apply Forall_forall. intros b Hb.
    cbn [create_commitment final_db set_commitments bets] in Hb.
    split; [apply (Hi b Hb)|]. intros c0.
    unfold create_commitment, find_commitment.
    cbn [final_db set_commitments commitments].
    destruct (Hl b Hb) as [_ Hin]. apply find_commitment_in in Hin.
    unfold find_commitment in Hin.
    destruct (find (fun c => c_id c =? b_commitment_id b) (commitments db))
      as [c1|] eqn:Ef; [|contradiction].
    rewrite (find_app_found _ _ _ _ Ef). intros [= <-].
    apply (Hi b Hb). exact Ef.
  - unfold delete_commitment.
    destruct (find_owned_commitment db cid u) as [c1|] eqn:Ef;
      cbn [final_db]; [|now apply Forall_forall].
    destruct (_ >? 0) eqn:En; cbn [final_db]; [now apply Forall_forall|].
    apply find_owned_id in Ef. destruct Ef as [Hid _].
    apply Forall_forall. intros b Hb. cbn [bets] in Hb.
    split; [apply (Hi b Hb)|]. intros c0.
    unfold find_commitment. cbn [commitments]. rewrite Hid.
    rewrite find_filter_other; [apply (Hi b Hb)|].
    intros Heq. rewrite (wager_counted (bets db) b cid Hb Heq) in En.
    discriminate.
  - apply (arms_length_same_tables db _
             (generate_ai_questions_tables db cid questions u)).
    now apply Forall_forall.
  - apply (arms_length_same_tables db _
             (submit_ai_answer_tables db cid answer u)).
    now apply Forall_forall.
  - destruct (complete_commitment db cid data u now coaching) as [c' db'|e db']
      eqn:E; cbn [final_db].
    + apply complete_commitment_returned in E.
      destruct E as (c & Hf & _ & Hc' & ->).
      assert (Hid : c_id c' = cid).
      { rewrite Hc'. cbn. now apply find_owned_id in Hf. }
      assert (Ho : c_owner_id c' = c_owner_id c) by now rewrite Hc'.
      unfold find_commitment.
      rewrite store_coaching_bets, store_coaching_commitments,
        SettlementFacts.settled_bets, SettlementFacts.settled_commitments.
      cbn [set_commitments commitments bets].
      apply Forall_map. apply Forall_forall. intros b Hb.
      rewrite settle_row_direction, SettlementFacts.settle_row_commitment,
        SettlementFacts.settle_row_bettor.
      split; [apply (Hi b Hb)|]. intros c0.
      destruct (Z.eq_dec (b_commitment_id b) cid) as [Hk | Hk].
      * rewrite Hk.
        rewrite (find_update_owned_same _ cid u c c' Hnc Hf Hid).
        intros [= <-]. rewrite Ho. apply (Hi b Hb). rewrite Hk.
        now apply (find_owned_found db cid u).
      * rewrite (find_update_owned_other _ _ cid u c' Hk Hid).
        apply (Hi b Hb).
    + apply complete_commitment_raised in E. destruct E as [-> _].
      now apply Forall_forall.
  - destruct (create_bet db cid data u now) as [bet db'|e db'] eqn:E;
      cbn [final_db].
    + apply create_bet_returned in E.
      destruct E as (c & rows & Hf & Hown & _ & _ & Hdir & _ & _ & Hbet & ->
                     & _).
      unfold find_commitment. cbn [bets commitments].
      apply Forall_snoc; [apply Forall_forall; exact Hi|].
      subst bet. cbn [b_commitment_id b_direction b_bettor_id].
      split; [exact Hdir|].
      intros c0 Hc0. unfold find_commitment in Hf. rewrite Hf in Hc0.
      now injection Hc0 as <-.
    + apply create_bet_raised in E.
      destruct E as [-> | [_ ->]]; now apply Forall_forall.
  - destruct (delete_bet db bid u) as [[] db'|e db'] eqn:E; cbn [final_db].
    + apply delete_bet_returned in E.
      destruct E as (bet & _ & _ & _ & _ & ->).
      unfold find_commitment. cbn [bets commitments].
      apply Forall_filter. now apply Forall_forall.
    + apply delete_bet_raised in E. subst db'. now apply Forall_forall.
Qed.

End ArmsLength.

(** X18: in every state that a history of calls leads to, every wager on
    the books, open or resolved, is on one of the two sides and is held by
    someone other than the owner of its commitment. *)
Theorem nobody_bets_on_their_own_commitment (history : list Ledger.call)
    (b : Bet) (c : Commitment) :
  In b (bets (Ledger.run empty_db history)) ->
  find_commitment (Ledger.run empty_db history) (b_commitment_id b) = Some c ->
  (b_direction b = "will_complete" \/ b_direction b = "will_fail")
  /\ c_owner_id c <> b_bettor_id b.
Proof.
  intros Hin Hc.
  assert (H : Ledger.sound (Ledger.run empty_db history)
              /\ Invariants.arms_length (Ledger.run empty_db history)).
  { apply (run_invariant
             (fun db => Ledger.sound db /\ Invariants.arms_length db));
      [split; [apply LedgerFacts.sound_empty | constructor]|].
    intros db k. apply arms_length_exec. }
  destruct H as [_ H]. unfold Invariants.arms_length in H.
  rewrite Forall_forall in H. destruct (H b Hin) as [Hd Ho].
  split; [exact Hd | now apply Ho].
Qed.

Lemma nobody_bets_on_their_own_commitment_witness :
  (b_direction (mkBet 3 1 4 "will_fail" 60 false None) = "will_complete"
   \/ b_direction (mkBet 3 1 4 "will_fail" 60 false None) = "will_fail")
  /\ c_owner_id (mkCommitment 1 1 1000 "pending" None None None)
     <> b_bettor_id (mkBet 3 1 4 "will_fail" 60 false None).
Proof.
  apply (nobody_bets_on_their_own_commitment Scenario.example_bets
           (mkBet 3 1 4 "will_fail" 60 false None)
           (mkCommitment 1 1 1000 "pending" None None None)).
  - right. right. left. reflexivity.
  - reflexivity.
Defined.

(** ** Reading a balance *)

(** X19: [get_balance] and [get_my_stats] report the same balance, the
    row's or the starting 500 when the user has no row; [get_balance]
    creates the missing row, so that a second read returns the same figure
    and changes nothing, and the statistics show it as well. *)
Theorem balance_reads_agree (db : DB) (u : Z) (name email : string) :
  let shown := Stats.out_balance (Stats.get_my_stats db u name email) in
  exists db',
    Accounts.get_balance db u = Returned shown db'
    /\ Accounts.get_balance db' u = Returned shown db'
    /\ Stats.out_balance (Stats.get_my_stats db' u name email) = shown
    /\ Ledger.total_balances db'
       = Ledger.total_balances db
         + (if has_account (balances db) u then 0 else 500)
    /\ (has_account (balances db) u = false -> shown = 500).
Proof.
  cbv zeta. unfold Accounts.get_balance, Stats.get_my_stats.
  cbn [Stats.out_balance].
  destruct (find_balance db u) as [r|] eqn:F.
  - exists db. rewrite F.
    assert (Ha : has_account (balances db) u = true)
      by (apply has_account_found; now exists r).
    rewrite Ha. repeat split; [lia | discriminate].
  - assert (Ha : has_account (balances db) u = false)
      by (now apply has_account_find).
    assert (F' : find_balance
                   (set_balances db (balances db ++ [mkUserBalance u 500])) u
                 = Some (mkUserBalance u 500)).
    { unfold find_balance in *. cbn [set_balances balances].
      rewrite (find_app_missing _ _ _ F). cbn [find ub_user_id].
      now rewrite Z.eqb_refl. }
    exists (set_balances db (balances db ++ [mkUserBalance u 500])).
    rewrite F', Ha. cbn [ub_balance]. repeat split.
    unfold Ledger.total_balances. cbn [set_balances balances].
    rewrite sum_app, sum_cons, sum_nil. cbn [ub_balance]. lia.
Qed.

(** ** Comments *)

Section Commenting.

Import Comments.

Lemma find_fresh_comment (rows : list Comment) (c : Comment) :
  cm_id c = next_id (map cm_id rows) ->
  find (fun x => cm_id x =? cm_id c) (rows ++ [c]) = Some c
  /\ filter (fun x => negb (cm_id x =? cm_id c)) (rows ++ [c]) = rows.
Proof.
  intros Hid.
  assert (Hold : forall x, In x rows -> (cm_id x =? cm_id c) = false).
  { intros x Hx. apply Z.eqb_neq. rewrite Hid.
    pose proof (next_id_above (map cm_id rows) (cm_id x) (in_map _ _ _ Hx)).
    lia. }
  split.
  - rewrite (find_app_missing _ _ _ (find_none_all _ _ Hold)).
    cbn [find]. now rewrite Z.eqb_refl.
  - rewrite filter_app. cbn [filter]. rewrite Z.eqb_refl. cbn [negb].
    rewrite app_nil_r. clear Hid.
    induction rows as [|x rows IH]; [reflexivity|]. cbn [filter].
    rewrite (Hold x) by now left. cbn [negb]. f_equal.
    apply IH. intros y Hy. apply Hold. now right.
Qed.

End Commenting.

(** X20: a comment that [create_comment] accepted is on an existing
    commitment, has a fresh id and the stripped, non-empty content, and is
    listed last for its commitment; after it, [delete_comment] by anyone
    else raises 403 and changes nothing, and by its author it restores the
    table of comments as it was. *)
Theorem comment_posted_then_deleted (strip : string -> string) (db : DB)
    (rows rows' : list Comments.Comment) (cid : Z) (content : string)
    (u : Z) (comment : Comments.Comment) :
  Comments.create_comment strip db rows cid content u = (inr comment, rows') ->
  find_commitment db cid <> None
  /\ Comments.cm_content comment = strip content
  /\ Comments.cm_content comment <> ""
  /\ ~ In (Comments.cm_id comment) (map Comments.cm_id rows)
  /\ (exists before,
        Comments.list_comments db rows cid = (inr before, rows)
        /\ Comments.list_comments db rows' cid
           = (inr (before ++ [comment]), rows'))
  /\ (forall v, v <> u ->
        Comments.delete_comment rows' (Comments.cm_id comment) v
        = (inl (mkHTTPException 403 "You can only delete your own comments"),
           rows'))
  /\ Comments.delete_comment rows' (Comments.cm_id comment) u = (inr tt, rows).
Proof.
  unfold Comments.create_comment, Comments.list_comments.
  destruct (find_commitment db cid) as [c|]; [|discriminate].
  destruct (strip content =? "")%string eqn:E; [discriminate|].
  intros [= <- <-]. apply String.eqb_neq in E.
  cbn [Comments.cm_content Comments.cm_id].
  split; [discriminate|]. split; [reflexivity|]. split; [exact E|].
  split; [apply next_id_fresh|].
  destruct (find_fresh_comment rows
              (Comments.mkComment (next_id (map Comments.cm_id rows)) cid u
                                  (strip content)) eq_refl) as [Hf Hd].
  cbn [Comments.cm_id] in Hf, Hd.
  split; [|split].
  - eexists. split; [reflexivity|].
    rewrite filter_app. cbn [filter Comments.cm_commitment_id].
    now rewrite Z.eqb_refl.
  - intros v Hv. unfold Comments.delete_comment. rewrite Hf.
    cbn [Comments.cm_user_id]. apply Z.eqb_neq in Hv.
    now rewrite (Z.eqb_sym u v), Hv.
  - unfold Comments.delete_comment. rewrite Hf.
    cbn [Comments.cm_user_id Comments.cm_id].
    now rewrite Z.eqb_refl, Hd.
Qed.

Lemma comment_posted_then_deleted_witness :
  Comments.delete_comment
    [Comments.mkComment 1 1 2 "well done"] 1 2 = (inr tt, []).
Proof.
  apply (proj2 (proj2 (proj2 (proj2 (proj2 (proj2
           (comment_posted_then_deleted (fun s => s)
              (Ledger.run empty_db Scenario.example_bets) []
              [Comments.mkComment 1 1 2 "well done"] 1 "well done" 2
              (Comments.mkComment 1 1 2 "well done") eq_refl))))))).
Defined.
